(** * MMDVMHost state machine: data models and configuration validation

    A shallow embedding of [mmdvm_statemachine/models.py] (the [QSO] and
    [SystemState] Pydantic models with their methods) and of the
    [StateMachineConfig] validators of [mmdvm_statemachine/config.py],
    followed by the properties of these methods.

    Python methods mutate [self], read the wall clock with
    [datetime.now()] and may raise.  They are embedded in a state monad
    over the receiver object and the clock, layered on an outcome type
    that records a raised exception. *)

From Stdlib Require Import ZArith QArith List String Bool Lia.
From Stdlib Require Import Sorting.Sorted.
Import ListNotations.

Local Open Scope string_scope.
Local Open Scope list_scope.
Local Open Scope Z_scope.

(* ================================================================== *)
(** ** Python values *)

(** [uuid.UUID]: a wrapper around a 128-bit integer, compared by value. *)
Definition UUID := Z.
Definition UUID_eqb (a b : UUID) : bool := Z.eqb a b.

(** A naive [datetime] is a count of microseconds on the civil time line;
    the difference of two of them is a [timedelta], again an exact count
    of microseconds.  [datetime.now()], called without a time zone,
    returns such a value. *)
Definition datetime := Z.
Definition timedelta := Z.

(** A [tzinfo] object: which object it is, and the UTC offset it gives
    for a wall time, [None] when its [utcoffset()] returns None. *)
Record tzinfo : Type := mkTzinfo {
  tz_object : Z;
  utcoffset : datetime -> option timedelta
}.

(** A [datetime] object as a field of a model may hold it: the wall time
    and the [tzinfo] attribute, [None] on a naive one. *)
Record timestamp : Type := mkTimestamp {
  wall : datetime;
  tz : option tzinfo
}.

Definition naive (t : datetime) : timestamp := mkTimestamp t None.

(** [timedelta.total_seconds()]: the microsecond count divided by [10**6].
    Python returns the nearest double; the embedding keeps the exact
    quotient, which has the same sign and the same zero. *)
Definition total_seconds (delta : timedelta) : Q := Qmake delta 1000000.
Arguments total_seconds delta%_Z.

(** Exceptions raised by the embedded code. *)
Inductive exn : Type :=
| ValueError (msg : string)
| IndexError (msg : string)
| TypeError (msg : string)
| ValidationError (errors : list string).

Inductive outcome (A : Type) : Type :=
| Return (a : A)
| Raise (e : exn).
Arguments Return {A} a.
Arguments Raise {A} e.

(** [d.utcoffset()] *)
Definition offset (d : timestamp) : option timedelta :=
  match tz d with
  | Some z => utcoffset z (wall d)
  | None => None
  end.

(** [a.tzinfo is b.tzinfo] *)
Definition same_tzinfo (a b : timestamp) : bool :=
  match tz a, tz b with
  | None, None => true
  | Some x, Some y => Z.eqb (tz_object x) (tz_object y)
  | _, _ => false
  end.

(** [a - b] on two [datetime] objects.  With one and the same [tzinfo]
    (or none on both sides) the wall times are subtracted; otherwise the
    offsets are taken into account, and the subtraction raises when only
    one side has an offset. *)
Definition datetime_sub (a b : timestamp) : outcome timedelta :=
  if same_tzinfo a b then Return (wall a - wall b)
  else
    match offset a, offset b with
    | Some oa, Some ob => Return (wall a - wall b - (oa - ob))
    | None, None => Return (wall a - wall b)
    | _, _ =>
        Raise (TypeError "can't subtract offset-naive and offset-aware datetimes")
    end.

(** Exactly one of the two has an offset, and they do not share their
    [tzinfo]. *)
Definition mixed_awareness (a b : timestamp) : bool :=
  negb (same_tzinfo a b)
  && match offset a, offset b with
     | Some _, None | None, Some _ => true
     | _, _ => false
     end.

(** The ambient wall clock: [readings n] is what the [n]-th call of
    [datetime.now()] returns, [calls] counts the calls made so far. *)
Record Clock : Type := mkClock { readings : nat -> datetime; calls : nat }.

Definition monotone (c : Clock) : Prop :=
  forall i j : nat, (i <= j)%nat -> readings c i <= readings c j.

(** A method of a class whose instances have type [T], returning [A].
    An exception carries no receiver here: the methods embedded with
    this type cannot raise after they have assigned to [self].  A method
    that can is embedded as an [Effect], below. *)
Definition Method (T A : Type) : Type := T -> Clock -> outcome (A * T * Clock).

Definition ret {T A} (a : A) : Method T A := fun self c => Return (a, self, c).

Definition bind {T A B} (m : Method T A) (k : A -> Method T B) : Method T B :=
  fun self c =>
    match m self c with
    | Return (a, self', c') => k a self' c'
    | Raise e => Raise e
    end.

Definition raise {T A} (e : exn) : Method T A := fun _ _ => Raise e.

(** Reading and writing the receiver. *)
Definition get_self {T} : Method T T := fun self c => Return (self, self, c).
Definition modify {T} (f : T -> T) : Method T unit :=
  fun self c => Return (tt, f self, c).

(** [datetime.now()] consumes one reading of the clock. *)
Definition datetime_now {T} : Method T datetime :=
  fun self c => Return (readings c (calls c), self, mkClock (readings c) (S (calls c))).

Declare Scope method_scope.
Delimit Scope method_scope with method.
Notation "x <- m ;; k" := (bind m (fun x => k))
  (at level 61, m at next level, right associativity) : method_scope.
Notation "m ;; k" := (bind m (fun _ => k))
  (at level 61, right associativity) : method_scope.
Local Open Scope method_scope.

(** A method that may raise after it has changed its receiver: the
    receiver and the clock are returned in either case. *)
Definition Effect (T A : Type) : Type := T -> Clock -> T * Clock * outcome A.

Definition eret {T A} (a : A) : Effect T A := fun self c => (self, c, Return a).

Definition ebind {T A B} (m : Effect T A) (k : A -> Effect T B) : Effect T B :=
  fun self c =>
    match m self c with
    | (self', c', Return a) => k a self' c'
    | (self', c', Raise e) => (self', c', Raise e)
    end.

(** An outcome computed without touching the receiver. *)
Definition lift {T A} (r : outcome A) : Effect T A := fun self c => (self, c, r).

Definition read_self {T} : Effect T T := fun self c => (self, c, Return self).

(** Attribute assignment on the receiver. *)
Definition assign {T} (f : T -> T) : Effect T unit :=
  fun self c => (f self, c, Return tt).

(** [datetime.now()]: one reading of the clock, a naive value. *)
Definition now {T} : Effect T timestamp :=
  fun self c =>
    (self, mkClock (readings c) (S (calls c)), Return (naive (readings c (calls c)))).

Declare Scope effect_scope.
Delimit Scope effect_scope with effect.
Notation "x <- m ;; k" := (ebind m (fun x => k))
  (at level 61, m at next level, right associativity) : effect_scope.
Notation "m ;; k" := (ebind m (fun _ => k))
  (at level 61, right associativity) : effect_scope.

(* ================================================================== *)
(** ** Enumerations of models.py *)

Inductive Mode : Type :=
| DSTAR | DMR | YSF | P25 | NXDN | POCSAG | FM | IDLE.

Inductive QSOStatus : Type :=
| STARTING | ACTIVE | ENDING | COMPLETED | TIMEOUT | ERROR.

Inductive ModemState : Type :=
| Modem_IDLE | Modem_RX | Modem_TX | Modem_ERROR | Modem_UNKNOWN.

Inductive NetworkStatus : Type :=
| CONNECTED | DISCONNECTED | CONNECTING | Net_ERROR | Net_UNKNOWN.

(** The enumerations are [str] subclasses: members compare by their value. *)
Definition QSOStatus_value (s : QSOStatus) : string :=
  match s with
  | STARTING => "STARTING" | ACTIVE => "ACTIVE" | ENDING => "ENDING"
  | COMPLETED => "COMPLETED" | TIMEOUT => "TIMEOUT" | ERROR => "ERROR"
  end.

Definition QSOStatus_eqb (a b : QSOStatus) : bool :=
  String.eqb (QSOStatus_value a) (QSOStatus_value b).

(* ================================================================== *)
(** ** class QSO *)

Module QSO.

Record t : Type := mk {
  id : UUID;
  start_time : timestamp;
  end_time : option timestamp;
  duration_seconds : option Q;
  mode : Mode;
  status : QSOStatus;
  source_callsign : option string;
  destination : option string;
  slot : option Z;
  talk_group : option Z;
  source_id : option Z;
  destination_id : option Z;
  reflector : option string;
  ber : option Q;
  rssi : option Z;
  loss_rate : option Q;
  rf_source : bool;
  metadata : list (string * string)
}.

(** Attribute assignment [self.f = v]; the model has no
    [validate_assignment], so the value is stored as given. *)
Definition set_end_time (v : option timestamp) (q : t) : t :=
  mk (id q) (start_time q) v (duration_seconds q) (mode q) (status q)
     (source_callsign q) (destination q) (slot q) (talk_group q)
     (source_id q) (destination_id q) (reflector q) (ber q) (rssi q)
     (loss_rate q) (rf_source q) (metadata q).

Definition set_duration_seconds (v : option Q) (q : t) : t :=
  mk (id q) (start_time q) (end_time q) v (mode q) (status q)
     (source_callsign q) (destination q) (slot q) (talk_group q)
     (source_id q) (destination_id q) (reflector q) (ber q) (rssi q)
     (loss_rate q) (rf_source q) (metadata q).

Definition set_status (v : QSOStatus) (q : t) : t :=
  mk (id q) (start_time q) (end_time q) (duration_seconds q) (mode q) v
     (source_callsign q) (destination q) (slot q) (talk_group q)
     (source_id q) (destination_id q) (reflector q) (ber q) (rssi q)
     (loss_rate q) (rf_source q) (metadata q).

(** [QSO(id=i, start_time=t0, mode=m)] with every other field at its
    declared default. *)
Definition create_at (i : UUID) (t0 : timestamp) (m : Mode) : t :=
  mk i t0 None None m STARTING None None None None None None None
     None None None true [].

(** The same with a naive start time. *)
Definition create (i : UUID) (t0 : datetime) (m : Mode) : t :=
  create_at i (naive t0) m.

(** [end_time or datetime.now()]: a [datetime] is always truthy, so the
    clock is read only when the argument is [None]. *)
Definition or_now (end_time : option timestamp) : Effect t timestamp :=
  match end_time with
  | Some e => eret e
  | None => now
  end.

(** [self.end_time - self.start_time]; subtracting from [None] raises,
    and so does subtracting an aware from a naive value or the reverse. *)
Definition elapsed : Effect t timedelta :=
  (self <- read_self ;;
   match end_time self with
   | Some e => lift (datetime_sub e (start_time self))
   | None => lift (Raise (TypeError "unsupported operand type(s) for -"))
   end)%effect.

(** [complete].  [end_time] is assigned before the subtraction, so it
    stays assigned when the subtraction raises. *)
Definition complete (end_time : option timestamp) : Effect t unit :=
  (e <- or_now end_time ;;
   assign (set_end_time (Some e)) ;;
   delta <- elapsed ;;
   assign (set_duration_seconds (Some (total_seconds delta))) ;;
   assign (set_status COMPLETED))%effect.

(** [self.status in (QSOStatus.STARTING, QSOStatus.ACTIVE)] *)
Definition is_active : Method t bool :=
  self <- get_self ;;
  ret (existsb (QSOStatus_eqb (status self)) [STARTING; ACTIVE]).

End QSO.

(* ================================================================== *)
(** ** class ModeStatus *)

Module ModeStatus.

Record t : Type := mk {
  mode : Mode;
  enabled : bool;
  network_status : NetworkStatus;
  network_name : option string;
  last_activity : option datetime
}.

End ModeStatus.

(* ================================================================== *)
(** ** class SystemState *)

Module SystemState.

Record t : Type := mk {
  current_mode : Mode;
  modem_state : ModemState;
  active_qsos : list QSO.t;
  mode_status : list (Mode * ModeStatus.t);
  last_update : datetime;
  uptime_seconds : option Q;
  error_count : Z;
  last_error : option string;
  last_error_time : option datetime
}.

Definition set_active_qsos (v : list QSO.t) (s : t) : t :=
  mk (current_mode s) (modem_state s) v (mode_status s) (last_update s)
     (uptime_seconds s) (error_count s) (last_error s) (last_error_time s).

Definition set_last_update (v : datetime) (s : t) : t :=
  mk (current_mode s) (modem_state s) (active_qsos s) (mode_status s) v
     (uptime_seconds s) (error_count s) (last_error s) (last_error_time s).

Definition set_error_count (v : Z) (s : t) : t :=
  mk (current_mode s) (modem_state s) (active_qsos s) (mode_status s)
     (last_update s) (uptime_seconds s) v (last_error s) (last_error_time s).

Definition set_last_error (v : option string) (s : t) : t :=
  mk (current_mode s) (modem_state s) (active_qsos s) (mode_status s)
     (last_update s) (uptime_seconds s) (error_count s) v (last_error_time s).

Definition set_last_error_time (v : option datetime) (s : t) : t :=
  mk (current_mode s) (modem_state s) (active_qsos s) (mode_status s)
     (last_update s) (uptime_seconds s) (error_count s) (last_error s) v.

(** [SystemState()]: every field at its default; [last_update] has
    [default_factory=datetime.now], one reading of the clock. *)
Definition create (c : Clock) : t * Clock :=
  (mk IDLE Modem_UNKNOWN [] [] (readings c (calls c)) None 0 None None,
   mkClock (readings c) (S (calls c))).

(** [self.active_qsos.append(qso)] *)
Definition append_active_qsos (qso : QSO.t) : Method t unit :=
  modify (fun self => set_active_qsos (active_qsos self ++ [qso]) self).

(** [self.active_qsos.pop(i)] for [i >= 0]: removes and returns the item
    at index [i]; an index past the end raises and leaves the list as
    it is. *)
Definition pop_active_qsos (i : nat) : Method t QSO.t :=
  fun self c =>
    match nth_error (active_qsos self) i with
    | Some item =>
        Return (item,
                set_active_qsos
                  (firstn i (active_qsos self) ++ skipn (S i) (active_qsos self))
                  self,
                c)
    | None => Raise (IndexError "pop index out of range")
    end.

Definition add_active_qso (qso : QSO.t) : Method t unit :=
  append_active_qsos qso ;;
  now <- datetime_now ;;
  modify (set_last_update now).

(** The [for i, qso in enumerate(self.active_qsos)] loop of
    [remove_active_qso], with [rest] the items not yet visited and [i]
    the index of the first of them.  The loop returns right after the
    [pop], so the list is never mutated while iteration continues. *)
Fixpoint remove_loop (qso_id : UUID) (i : nat) (rest : list QSO.t)
  : Method t (option QSO.t) :=
  match rest with
  | [] => ret None
  | qso :: rest' =>
      if UUID_eqb (QSO.id qso) qso_id then
        removed <- pop_active_qsos i ;;
        now <- datetime_now ;;
        modify (set_last_update now) ;;
        ret (Some removed)
      else remove_loop qso_id (S i) rest'
  end.

Definition remove_active_qso (qso_id : UUID) : Method t (option QSO.t) :=
  self <- get_self ;;
  remove_loop qso_id 0 (active_qsos self).

(** The [for qso in self.active_qsos] loop of [get_active_qso_by_id]. *)
Fixpoint get_loop (qso_id : UUID) (rest : list QSO.t)
  : Method t (option QSO.t) :=
  match rest with
  | [] => ret None
  | qso :: rest' =>
      if UUID_eqb (QSO.id qso) qso_id then ret (Some qso)
      else get_loop qso_id rest'
  end.

Definition get_active_qso_by_id (qso_id : UUID) : Method t (option QSO.t) :=
  self <- get_self ;;
  get_loop qso_id (active_qsos self).

Definition record_error (error_message : string) : Method t unit :=
  modify (fun self => set_error_count (error_count self + 1) self) ;;
  modify (set_last_error (Some error_message)) ;;
  now <- datetime_now ;;
  modify (set_last_error_time (Some now)) ;;
  now' <- datetime_now ;;
  modify (set_last_update now').

(** *** Sequences of mutating operations *)

Inductive Op : Type :=
| AddActiveQso (qso : QSO.t)
| RemoveActiveQso (qso_id : UUID)
| RecordError (error_message : string).

Definition step (op : Op) : Method t unit :=
  match op with
  | AddActiveQso qso => add_active_qso qso
  | RemoveActiveQso qso_id => remove_active_qso qso_id ;; ret tt
  | RecordError msg => record_error msg
  end.

(** The states a run goes through, the starting state first; a run
    stops at an operation that raises. *)
Fixpoint trace (ops : list Op) (s : t) (c : Clock) : list t :=
  s :: match ops with
       | [] => []
       | op :: ops' =>
           match step op s c with
           | Return (_, s', c') => trace ops' s' c'
           | Raise _ => []
           end
       end.

(** A run from the state that [SystemState()] builds. *)
Definition trace_from_create (ops : list Op) (c : Clock) : list t :=
  let (s0, c0) := create c in trace ops s0 c0.

Definition active_ids (s : t) : list UUID := map QSO.id (active_qsos s).

(** Every [add_active_qso] of the run is given a QSO whose id is not
    the id of a QSO in [active_qsos] at that moment. *)
Fixpoint adds_fresh (ops : list Op) (s : t) (c : Clock) : bool :=
  match ops with
  | [] => true
  | op :: ops' =>
      match op with
      | AddActiveQso qso => negb (existsb (UUID_eqb (QSO.id qso)) (active_ids s))
      | _ => true
      end
      && match step op s c with
         | Return (_, s', c') => adds_fresh ops' s' c'
         | Raise _ => false
         end
  end.

Definition adds_fresh_from_create (ops : list Op) (c : Clock) : bool :=
  let (s0, c0) := create c in adds_fresh ops s0 c0.

End SystemState.

(* ================================================================== *)
(** ** config.py: class StateMachineConfig and the assembly of Config *)

Definition obind {A B} (r : outcome A) (k : A -> outcome B) : outcome B :=
  match r with
  | Return a => k a
  | Raise e => Raise e
  end.

Module StateMachineConfig.

Record t : Type := mk {
  qso_history_size : Z;
  qso_timeout_seconds : Z;
  supported_modes : list string
}.

Definition validate_history_size (v : Z) : outcome Z :=
  if (v <? 1) || (v >? 10000)
  then Raise (ValueError "qso_history_size must be between 1 and 10000")
  else Return v.

Definition validate_timeout (v : Z) : outcome Z :=
  if (v <? 1) || (v >? 3600)
  then Raise (ValueError "qso_timeout_seconds must be between 1 and 3600")
  else Return v.

(** A field of the model.  [given] is the value that the sources of the
    settings supply for it, if any: the keyword argument, and failing
    that the environment variable of the field's name ([from_sources],
    below).  A supplied value goes through the field's validator; with
    no value from any source the field takes the declared default, which
    Pydantic does not validate. *)
Definition field (default : Z) (validator : Z -> outcome Z) (given : option Z)
  : outcome Z :=
  match given with
  | Some v => validator v
  | None => Return default
  end.

Definition error_messages {A} (r : outcome A) : list string :=
  match r with
  | Return _ => []
  | Raise (ValueError msg) => [msg]
  | Raise (IndexError msg) => [msg]
  | Raise (TypeError msg) => [msg]
  | Raise (ValidationError errors) => errors
  end.

Definition default_modes : list string :=
  ["DSTAR"; "DMR"; "YSF"; "P25"; "NXDN"; "POCSAG"; "FM"; "IDLE"].

(** Constructing a [StateMachineConfig]; the arguments are what the
    sources of the settings supply for the three fields.  Every
    supplied field is validated;
    the [ValueError]s of the validators are collected into one
    [ValidationError] and no object is built when there is any. *)
Definition create (history_size timeout : option Z) (modes : option (list string))
  : outcome t :=
  match field 100 validate_history_size history_size,
        field 30 validate_timeout timeout with
  | Return h, Return s =>
      Return (mk h s (match modes with Some l => l | None => default_modes end))
  | r1, r2 => Raise (ValidationError (error_messages r1 ++ error_messages r2))
  end.

End StateMachineConfig.

Module Config.
Section Assembly.

(** The five sections other than [state_machine] are carried as they
    come out of their own constructors. *)
Variables LogMonitoringConfig APIConfig WebSocketConfig LoggingConfig
          PerformanceConfig : Type.

Record t : Type := mk {
  log_monitoring : LogMonitoringConfig;
  state_machine : StateMachineConfig.t;
  api : APIConfig;
  websocket : WebSocketConfig;
  logging : LoggingConfig;
  performance : PerformanceConfig
}.

(** The [return cls(log_monitoring=..., state_machine=..., ...)] of
    [Config.from_yaml]: the section constructors are evaluated in
    argument order and the first exception leaves the call. *)
Definition from_sections
    (lm : outcome LogMonitoringConfig)
    (history_size timeout : option Z) (modes : option (list string))
    (ap : outcome APIConfig) (ws : outcome WebSocketConfig)
    (lg : outcome LoggingConfig) (pf : outcome PerformanceConfig)
  : outcome t :=
  obind lm (fun lm' =>
  obind (StateMachineConfig.create history_size timeout modes) (fun sm' =>
  obind ap (fun ap' =>
  obind ws (fun ws' =>
  obind lg (fun lg' =>
  obind pf (fun pf' =>
  Return (mk lm' sm' ap' ws' lg' pf'))))))).

End Assembly.
End Config.

(* ================================================================== *)
(** ** Reading of the specification and sample values *)

(** The duration the specification describes for a completed QSO: the
    difference of end and start, clamped at zero. *)
Definition spec_clamped_duration (start_time end_time : datetime) : Q :=
  total_seconds (Z.max 0 (end_time - start_time)).

(** The clock after one more call of [datetime.now()]. *)
Definition tick (c : Clock) : Clock := mkClock (readings c) (S (calls c)).

(** What a call of [QSO.complete] takes as the end time, and the clock it
    leaves. *)
Definition chosen_end (end_time : option timestamp) (c : Clock) : timestamp :=
  match end_time with
  | Some e => e
  | None => naive (readings c (calls c))
  end.

Definition clock_after (end_time : option timestamp) (c : Clock) : Clock :=
  match end_time with
  | Some _ => c
  | None => tick c
  end.

(** [other_id qso_id q]: the QSO [q] does not carry the id [qso_id]. *)
Definition other_id (qso_id : UUID) (q : QSO.t) : Prop := QSO.id q <> qso_id.

(** A clock that advances one second per reading. *)
Definition second_clock : Clock := mkClock (fun n => Z.of_nat n * 1000000) 0.

(** A clock that runs backwards. *)
Definition backward_clock : Clock := mkClock (fun n => - Z.of_nat n) 0.

(** A QSO started at second 10. *)
Definition qso_at_10 : QSO.t := QSO.create 1 10000000 DMR.

Definition qso_ending : QSO.t := QSO.set_status ENDING (QSO.create 2 0 DMR).

(** A QSO that timed out at second 5 after starting at second 0. *)
Definition qso_timed_out : QSO.t :=
  QSO.set_status TIMEOUT
    (QSO.set_duration_seconds (Some (total_seconds 5000000))
       (QSO.set_end_time (Some (naive 5000000)) (QSO.create 3 0 YSF))).

(** Two durations are the same number, or both absent. *)
Definition same_duration (a b : option Q) : Prop :=
  match a, b with
  | Some x, Some y => Qeq x y
  | None, None => True
  | _, _ => False
  end.

(** UTC as a [tzinfo], and a QSO whose start time is aware: second 10 in
    UTC. *)
Definition utc : tzinfo := mkTzinfo 1 (fun _ => Some 0).

Definition qso_aware_at_10 : QSO.t :=
  QSO.create_at 4 (mkTimestamp 10000000 (Some utc)) DMR.

(** A QSO already completed at second 5, started at second 0, whose
    duration is held as the number 5. *)
Definition qso_completed_at_5 : QSO.t :=
  QSO.set_status COMPLETED
    (QSO.set_duration_seconds (Some (5 # 1))
       (QSO.set_end_time (Some (naive 5000000)) (QSO.create 5 0 YSF))).

(** A state whose [last_update] was given to the constructor and lies
    ahead of [second_clock]. *)
Definition state_ahead_of_clock : SystemState.t :=
  SystemState.set_last_update 99000000 (fst (SystemState.create second_clock)).

(** Two different QSOs built with the same explicit id. *)
Definition qso_a : QSO.t := QSO.create 7 0 DMR.
Definition qso_a' : QSO.t := QSO.create 7 5000000 YSF.
Definition qso_b : QSO.t := QSO.create 8 0 P25.

(** The state and the clock right after [SystemState()] under
    [second_clock]. *)
Definition fresh_state : SystemState.t := fst (SystemState.create second_clock).
Definition fresh_clock : Clock := snd (SystemState.create second_clock).

(** A run in which every added QSO has an id not currently active. *)
Definition sample_ops : list SystemState.Op :=
  [SystemState.AddActiveQso qso_a; SystemState.AddActiveQso qso_b;
   SystemState.RemoveActiveQso 7; SystemState.RecordError "parse failure";
   SystemState.AddActiveQso qso_a'; SystemState.RemoveActiveQso 99].

(** A run that adds two QSOs with the same id. *)
Definition clashing_ops : list SystemState.Op :=
  [SystemState.AddActiveQso qso_a; SystemState.AddActiveQso qso_a'].

(* ================================================================== *)
(** ** Runs of operations and default construction *)

(** [QSO(id=i, mode=m)]: [start_time] has [default_factory=datetime.now]
    and takes one reading of the clock. *)
Definition QSO_now (i : UUID) (m : Mode) (c : Clock) : QSO.t * Clock :=
  (QSO.create i (readings c (calls c)) m, tick c).

Module Run.
Import SystemState.

(** The operations of a list, one after the other, on one state. *)
Fixpoint run (ops : list Op) : Method t unit :=
  match ops with
  | [] => ret tt
  | op :: ops' => step op ;; run ops'
  end.

Fixpoint count_errors (ops : list Op) : Z :=
  match ops with
  | [] => 0
  | RecordError _ :: ops' => 1 + count_errors ops'
  | _ :: ops' => count_errors ops'
  end.

(** The message of the last [record_error] of the list, [before] when it
    has none. *)
Fixpoint last_message (ops : list Op) (before : option string) : option string :=
  match ops with
  | [] => before
  | RecordError msg :: ops' => last_message ops' (Some msg)
  | _ :: ops' => last_message ops' before
  end.

(** The QSOs handed to [add_active_qso], in order. *)
Fixpoint added (ops : list Op) : list QSO.t :=
  match ops with
  | [] => []
  | AddActiveQso qso :: ops' => qso :: added ops'
  | _ :: ops' => added ops'
  end.

(** The time of the last error is not after the last update. *)
Definition error_time_before_update (s : t) : Prop :=
  match last_error_time s with
  | Some e => e <= last_update s
  | None => True
  end.

End Run.

(* ================================================================== *)
(** ** config.py: the other configuration sections *)

(** The sources of a settings class, for one field: the keyword
    argument comes first, then the environment variable of the field's
    name, both already parsed to the field's type. *)
Definition from_sources {A : Type} (keyword environment : option A) : option A :=
  match keyword with
  | Some v => Some v
  | None => environment
  end.

(** Python truthiness of an [Optional[str]]: neither [None] nor empty. *)
Definition truthy (s : option string) : bool :=
  match s with
  | Some (String _ _) => true
  | _ => false
  end.

Module LogMonitoringConfig.

Record t : Type := mk {
  log_path_pattern : string;
  log_directory : string;
  rotation_check_interval : Z;
  read_buffer_size : Z
}.

Definition default : t :=
  mk "/var/log/mmdvm/MMDVM-*.log" "/var/log/mmdvm" 60 8192.

End LogMonitoringConfig.

Module RateLimitConfig.

Record t : Type := mk { enabled : bool; requests_per_minute : Z }.

Definition default : t := mk false 60.

End RateLimitConfig.

Module APIConfig.

Record t : Type := mk {
  host : string;
  port : Z;
  enable_cors : bool;
  cors_origins : list string;
  require_auth : bool;
  api_keys : list (string * string);
  rate_limit : RateLimitConfig.t
}.

Definition default : t :=
  mk "0.0.0.0" 8080 true
     ["http://localhost"; "http://localhost:3000"; "http://localhost:8080"]
     false [] RateLimitConfig.default.

Definition validate_port (v : Z) : outcome Z :=
  if (v <? 1) || (v >? 65535)
  then Raise (ValueError "port must be between 1 and 65535")
  else Return v.

End APIConfig.

Module WebSocketConfig.

Record t : Type := mk { max_connections : Z; ping_interval : Z; timeout : Z }.

Definition default : t := mk 50 30 300.

Definition validate_max_connections (v : Z) : outcome Z :=
  if (v <? 1) || (v >? 1000)
  then Raise (ValueError "max_connections must be between 1 and 1000")
  else Return v.

End WebSocketConfig.

Module LogRotationConfig.

Record t : Type := mk { enabled : bool; max_bytes : Z; backup_count : Z }.

Definition default : t := mk true 10485760 5.

End LogRotationConfig.

Module LoggingConfig.

Record t : Type := mk {
  level : string;
  file : option string;
  format : string;
  rotation : LogRotationConfig.t
}.

Definition default : t :=
  mk "INFO" (Some "/var/log/mmdvm-state-machine/app.log")
     "%(asctime)s - %(name)s - %(levelname)s - %(message)s"
     LogRotationConfig.default.

Definition valid_levels : list string :=
  ["DEBUG"; "INFO"; "WARNING"; "ERROR"; "CRITICAL"].

(** [validate_level], over the built-in [str.upper], which the embedding
    takes as the parameter [upper]. *)
Definition validate_level (upper : string -> string) (v : string)
  : outcome string :=
  let v_upper := upper v in
  if negb (existsb (String.eqb v_upper) valid_levels)
  then Raise (ValueError
                ("level must be one of: " ++ String.concat ", " valid_levels)%string)
  else Return v_upper.

End LoggingConfig.

Module PerformanceConfig.

Record t : Type := mk { use_uvloop : bool; workers : Z; enable_metrics : bool }.

Definition default : t := mk true 1 false.

Definition validate_workers (v : Z) : outcome Z :=
  if (v <? 1) || (v >? 16)
  then Raise (ValueError "workers must be between 1 and 16")
  else Return v.

End PerformanceConfig.

(** The [Config] class with its six sections. *)
Definition AppConfig : Type :=
  Config.t LogMonitoringConfig.t APIConfig.t WebSocketConfig.t
           LoggingConfig.t PerformanceConfig.t.

Definition config_log_directory (config : AppConfig) : string :=
  LogMonitoringConfig.log_directory (Config.log_monitoring _ _ _ _ _ config).

Definition config_logging_file (config : AppConfig) : option string :=
  LoggingConfig.file (Config.logging _ _ _ _ _ config).

(** [str.upper] on text that is ASCII only: a sample the parameter of
    [validate_level] can be instantiated with. *)
Definition ascii_upper (a : Ascii.ascii) : Ascii.ascii :=
  let n := Ascii.nat_of_ascii a in
  if ((97 <=? n) && (n <=? 122))%nat then Ascii.ascii_of_nat (n - 32) else a.

Fixpoint upper_ascii (s : string) : string :=
  match s with
  | EmptyString => EmptyString
  | String a rest => String (ascii_upper a) (upper_ascii rest)
  end.

(* ================================================================== *)
(** ** config.py: finding, loading and checking the configuration *)

(** Exceptions of the functions that touch the file system. *)
Inductive os_exn : Type :=
| FileNotFoundError (msg : string)
| RuntimeError (msg : string)
| ModelError (e : exn)
| OSError (msg : string).

Inductive io (A : Type) : Type :=
| Done (a : A)
| Fail (e : os_exn).
Arguments Done {A} a.
Arguments Fail {A} e.

(** What the code asks of [pathlib], [os], the YAML loader and the
    settings library.  A file-system state is passed explicitly because
    [mkdir] changes it. *)
Record Platform : Type := mkPlatform {
  path : Type;
  Path : string -> path;
  path_str : path -> string;
  joinpath : path -> string -> path;
  parent : path -> path;
  fs : Type;
  (** [p.exists()]: True or False, or the exception it lets through.
      It answers False for a file or directory that is not there and
      re-raises any other [OSError], such as [PermissionError]. *)
  path_exists : fs -> path -> io bool;
  access_R_OK : fs -> path -> bool;
  access_W_OK : fs -> path -> bool;
  (** [p.mkdir(parents=True, exist_ok=True)]: the file system it leaves
      and, when it raised [OSError], the text of the error. *)
  mkdir_parents : path -> fs -> fs * option string;
  (** [os.environ.get] *)
  environ_get : string -> option string;
  (** [Path.home()], [None] when it raises [RuntimeError], which then
      carries the text [home_error]. *)
  home : option path;
  home_error : string;
  (** The rest of [Config.from_yaml] once the file is known to exist:
      opening it, [yaml.safe_load] and the construction of the sections. *)
  read_config : fs -> path -> io AppConfig;
  (** [Config()], every section from its defaults and the environment. *)
  default_config : io AppConfig;
  (** Opening [filename] for appending, as the constructors of
      [FileHandler] and [RotatingFileHandler] do: the file system it
      leaves and, when it raised [OSError], the text of the error. *)
  open_append : string -> fs -> fs * option string;
  (** What [setLevel] makes of a level given by name: its number, or the
      [ValueError] for a name the logging module does not know. *)
  check_level : string -> outcome Z;
  (** [logging.Formatter(fmt)] checks the format string: the text of its
      [ValueError], if any. *)
  formatter_error : string -> option string
}.

Module ConfigFiles.
Section OnPlatform.

Variable P : Platform.

Definition no_config_message : string :=
  "No configuration file found. Please create config.yaml or set MMDVM_CONFIG".

(** The three standard locations, for the home directory [h]. *)
Definition standard_paths (h : path P) : list (path P) :=
  [Path P "config.yaml";
   joinpath P (joinpath P (joinpath P h ".config") "mmdvm-state-machine")
     "config.yaml";
   Path P "/etc/mmdvm-state-machine/config.yaml"].

(** The [search_paths] list; building it calls [Path.home()]. *)
Definition search_paths : io (list (path P)) :=
  match home P with
  | Some h => Done (standard_paths h)
  | None => Fail (RuntimeError (home_error P))
  end.

(** The path named by MMDVM_CONFIG, when the variable is set and not
    empty. *)
Definition env_candidate : list (path P) :=
  match environ_get P "MMDVM_CONFIG" with
  | Some env_path => if truthy (Some env_path) then [Path P env_path] else []
  | None => []
  end.

Definition missing (f : fs P) (p : path P) : Prop :=
  path_exists P f p = Done false.

(** The [for path in search_paths] loop and the [raise] after it. *)
Fixpoint first_existing (f : fs P) (paths : list (path P)) : io (path P) :=
  match paths with
  | [] => Fail (FileNotFoundError no_config_message)
  | p :: rest =>
      match path_exists P f p with
      | Done true => Done p
      | Done false => first_existing f rest
      | Fail e => Fail e
      end
  end.

Definition search_standard (f : fs P) : io (path P) :=
  match search_paths with
  | Done paths => first_existing f paths
  | Fail e => Fail e
  end.

Definition get_default_config_path (f : fs P) : io (path P) :=
  match environ_get P "MMDVM_CONFIG" with
  | Some env_path =>
      if truthy (Some env_path) then
        match path_exists P f (Path P env_path) with
        | Done true => Done (Path P env_path)
        | Done false => search_standard f
        | Fail e => Fail e
        end
      else search_standard f
  | None => search_standard f
  end.

Definition from_yaml (yaml_path : string) (f : fs P) : io AppConfig :=
  let yaml_file := Path P yaml_path in
  match path_exists P f yaml_file with
  | Done false =>
      Fail (FileNotFoundError
              ("Configuration file not found: " ++ yaml_path)%string)
  | Done true => read_config P f yaml_file
  | Fail e => Fail e
  end.

Definition value_error {A} (msg : string) : io A :=
  Fail (ModelError (ValueError msg)).

(** The [os.access(app_log_dir, os.W_OK)] test that ends
    [validate_runtime]. *)
Definition check_writable (app_log_dir : path P) (f : fs P) : fs P * io unit :=
  if negb (access_W_OK P f app_log_dir)
  then (f, value_error ("Log directory is not writable: "
                          ++ path_str P app_log_dir)%string)
  else (f, Done tt).

(** The block under [if self.logging.file:] of [validate_runtime].  The
    [exists()] call is outside the [try], so what it raises leaves the
    function as it is; an [OSError] of [mkdir] becomes a [ValueError]. *)
Definition check_app_log_dir (file : string) (f : fs P) : fs P * io unit :=
  let app_log_dir := parent P (Path P file) in
  match path_exists P f app_log_dir with
  | Fail e => (f, Fail e)
  | Done true => check_writable app_log_dir f
  | Done false =>
      match mkdir_parents P app_log_dir f with
      | (f', Some e) =>
          (f', value_error ("Cannot create log directory "
                              ++ path_str P app_log_dir ++ ": " ++ e)%string)
      | (f', None) => check_writable app_log_dir f'
      end
  end.

Definition validate_runtime (config : AppConfig) (f : fs P) : fs P * io unit :=
  let log_dir := Path P (config_log_directory config) in
  match path_exists P f log_dir with
  | Fail e => (f, Fail e)
  | Done false =>
      (f, value_error ("Log directory does not exist: "
                         ++ config_log_directory config)%string)
  | Done true =>
      if negb (access_R_OK P f log_dir)
      then (f, value_error ("Log directory is not readable: "
                              ++ config_log_directory config)%string)
      else match config_logging_file config with
           | Some file =>
               if truthy (Some file) then check_app_log_dir file f
               else (f, Done tt)
           | None => (f, Done tt)
           end
  end.

(** The [try: ... except FileNotFoundError: config = Config()] of
    [load_config]: only [FileNotFoundError] is caught. *)
Definition load_default (f : fs P) : io AppConfig :=
  match
    match get_default_config_path f with
    | Done default_path => from_yaml (path_str P default_path) f
    | Fail e => Fail e
    end
  with
  | Fail (FileNotFoundError _) => default_config P
  | r => r
  end.

(** The [if config_path: ... else: ...] of [load_config]. *)
Definition choose_config (config_path : option string) (f : fs P)
  : io AppConfig :=
  match config_path with
  | Some p => if truthy (Some p) then from_yaml p f else load_default f
  | None => load_default f
  end.

Definition load_config (config_path : option string) (f : fs P)
  : fs P * io AppConfig :=
  match choose_config config_path f with
  | Done config =>
      match validate_runtime config f with
      | (f', Done _) => (f', Done config)
      | (f', Fail e) => (f', Fail e)
      end
  | Fail e => (f, Fail e)
  end.

End OnPlatform.
End ConfigFiles.

(* ================================================================== *)
(** ** logging_setup.py *)

Module LoggerAdapter.

(** [f"{k}={v}"] for one item of [self.extra.items()], key and value
    already in their text form. *)
Definition format_item (item : string * string) : string :=
  (fst item ++ "=" ++ snd item)%string.

(** [LoggerAdapter.process]; [extra] is the adapter's mapping as the
    list of its items in insertion order, [None] or empty being falsy. *)
Definition process {K : Type} (extra : option (list (string * string)))
    (msg : string) (kwargs : K) : string * K :=
  match extra with
  | Some (item :: items) =>
      let extra_str := String.concat " " (map format_item (item :: items)) in
      ((msg ++ " [" ++ extra_str ++ "]")%string, kwargs)
  | _ => (msg, kwargs)
  end.

End LoggerAdapter.

Module Logging.

Inductive HandlerKind : Type :=
| StreamHandler_stdout
| RotatingFileHandler (filename : string) (maxBytes backupCount : Z)
| FileHandler (filename : string).

Record Handler : Type := mkHandler {
  kind : HandlerKind;
  handler_level : Z;
  handler_format : option string
}.

(** The root logger: its level and its list of handlers. *)
Record Logger : Type := mkLogger { level : Z; handlers : list Handler }.

Definition INFO : Z := 20.

Section OnPlatform.

Variable P : Platform.

(** What [setup_logging] touches or depends on: the root logger, the
    file system, the records handed to handlers (latest last), and
    [unblocked], which tells for an INFO message whether the parts of
    the logging state that [setup_logging] leaves alone let it through:
    the logger is not disabled, logging is not disabled at INFO, and the
    filters of the root logger accept the record. *)
Record World : Type := mkWorld {
  root : Logger;
  files : fs P;
  delivered : list (Handler * string);
  unblocked : string -> bool
}.

(** [root_logger.info(msg)]: the record goes to every handler of the
    root logger whose level lets INFO through, if the logger's own level
    does and nothing else blocks it. *)
Definition info (msg : string) (w : World) : World :=
  if unblocked w msg && (level (root w) <=? INFO) then
    mkWorld (root w) (files w)
      (delivered w
       ++ map (fun h => (h, msg))
            (filter (fun h => handler_level h <=? INFO) (handlers (root w))))
      (unblocked w)
  else w.

Definition initial_message (config : LoggingConfig.t) : string :=
  ("Logging initialized: level=" ++ LoggingConfig.level config ++ ", file="
   ++ match LoggingConfig.file config with
      | Some file => file
      | None => "None"
      end)%string.

(** The file handler [setup_logging] builds for [file]. *)
Definition file_handler_kind (config : LoggingConfig.t) (file : string)
  : HandlerKind :=
  if LogRotationConfig.enabled (LoggingConfig.rotation config)
  then RotatingFileHandler file
         (LogRotationConfig.max_bytes (LoggingConfig.rotation config))
         (LogRotationConfig.backup_count (LoggingConfig.rotation config))
  else FileHandler file.

(** [setup_logging].  Each step works on the world the step before has
    left, so an exception leaves the root logger as far as it got. *)
Definition setup_logging (config : LoggingConfig.t) (w : World)
  : World * io unit :=
  (* root_logger.setLevel(config.level) *)
  match check_level P (LoggingConfig.level config) with
  | Raise e => (w, Fail (ModelError e))
  | Return n =>
      (* root_logger.handlers.clear() *)
      let w1 := mkWorld (mkLogger n []) (files w) (delivered w) (unblocked w) in
      (* formatter = logging.Formatter(config.format) *)
      match formatter_error P (LoggingConfig.format config) with
      | Some msg => (w1, Fail (ModelError (ValueError msg)))
      | None =>
          let formatter := Some (LoggingConfig.format config) in
          let console_handler := mkHandler StreamHandler_stdout n formatter in
          let w2 := mkWorld (mkLogger n [console_handler]) (files w1)
                      (delivered w1) (unblocked w1) in
          match LoggingConfig.file config with
          | Some file =>
              if truthy (Some file) then
                (* log_file_path.parent.mkdir(parents=True, exist_ok=True) *)
                match mkdir_parents P (parent P (Path P file)) (files w2) with
                | (f3, Some e) =>
                    (mkWorld (root w2) f3 (delivered w2) (unblocked w2),
                     Fail (OSError e))
                | (f3, None) =>
                    (* the handler's constructor opens the file *)
                    match open_append P file f3 with
                    | (f4, Some e) =>
                        (mkWorld (root w2) f4 (delivered w2) (unblocked w2),
                         Fail (OSError e))
                    | (f4, None) =>
                        let file_handler :=
                          mkHandler (file_handler_kind config file) n formatter in
                        let w5 :=
                          mkWorld (mkLogger n [console_handler; file_handler])
                            f4 (delivered w2) (unblocked w2) in
                        (info (initial_message config) w5, Done tt)
                    end
                end
              else (info (initial_message config) w2, Done tt)
          | None => (info (initial_message config) w2, Done tt)
          end
      end
  end.

(** The handlers a successful [setup_logging] installs for [config] when
    its level has the number [n]. *)
Definition installed (config : LoggingConfig.t) (n : Z) : list Handler :=
  mkHandler StreamHandler_stdout n (Some (LoggingConfig.format config))
  :: match LoggingConfig.file config with
     | Some file =>
         if truthy (Some file)
         then [mkHandler (file_handler_kind config file) n
                 (Some (LoggingConfig.format config))]
         else []
     | None => []
     end.

End OnPlatform.
End Logging.

(** The level names of the logging module. *)
Definition level_of_name (name : string) : outcome Z :=
  if String.eqb name "CRITICAL" then Return 50
  else if String.eqb name "FATAL" then Return 50
  else if String.eqb name "ERROR" then Return 40
  else if String.eqb name "WARN" then Return 30
  else if String.eqb name "WARNING" then Return 30
  else if String.eqb name "INFO" then Return 20
  else if String.eqb name "DEBUG" then Return 10
  else if String.eqb name "NOTSET" then Return 0
  else Raise (ValueError ("Unknown level: '" ++ name ++ "'")%string).

(** A small platform to run the code on: paths are their strings, the
    file system is the list of paths that exist, all of them readable
    and writable, [exists()] raises on the paths of a given list,
    [mkdir] and opening for appending add the path, every
    file holds the default configuration, level names are those of the
    logging module and every format string is taken. *)
Fixpoint dirname_prefix (s : string) : option string :=
  match s with
  | EmptyString => None
  | String a rest =>
      match dirname_prefix rest with
      | Some d => Some (String a d)
      | None => if Ascii.eqb a (Ascii.ascii_of_nat 47) then Some EmptyString else None
      end
  end.

Definition dirname (s : string) : string :=
  match dirname_prefix s with
  | Some EmptyString => "/"
  | Some d => d
  | None => "."
  end.

Definition listed (f : list string) (p : string) : bool :=
  existsb (String.eqb p) f.

Definition default_app_config : AppConfig :=
  Config.mk _ _ _ _ _
    LogMonitoringConfig.default
    (StateMachineConfig.mk 100 30 StateMachineConfig.default_modes)
    APIConfig.default WebSocketConfig.default LoggingConfig.default
    PerformanceConfig.default.

(** [exists()] on the small platform: it raises [PermissionError] for
    the paths of [locked]. *)
Definition probe (locked : list string) (f : list string) (p : string)
  : io bool :=
  if listed locked p then Fail (OSError "[Errno 13] Permission denied")
  else Done (listed f p).

Definition guarded_platform (locked : list string)
    (env : option string) (home_dir : option string) : Platform :=
  mkPlatform string (fun s => s) (fun p => p)
    (fun p s => (p ++ "/" ++ s)%string) dirname
    (list string) (probe locked) listed listed
    (fun p f => (p :: f, None))
    (fun name => if String.eqb name "MMDVM_CONFIG" then env else None)
    home_dir "Could not determine home directory."
    (fun _ _ => Done default_app_config)
    (Done default_app_config)
    (fun p f => (p :: f, None))
    level_of_name
    (fun _ => None).

Definition sample_platform (env : option string) (home_dir : option string)
  : Platform := guarded_platform [] env home_dir.

(** The sample platform with no MMDVM_CONFIG and a home directory, a
    file system holding the default log directory only, and a root
    logger left over from an earlier setup. *)
Definition plain_platform : Platform :=
  sample_platform None (Some "/home/op").

Definition log_dir_only : fs plain_platform := ["/var/log/mmdvm"].

Definition used_world : Logging.World plain_platform :=
  Logging.mkWorld plain_platform
    (Logging.mkLogger 10
       [Logging.mkHandler Logging.StreamHandler_stdout 10 None;
        Logging.mkHandler (Logging.FileHandler "/tmp/old.log") 10 None])
    log_dir_only [] (fun _ => true).

Definition clean_world : Logging.World plain_platform :=
  Logging.mkWorld plain_platform (Logging.mkLogger 30 []) log_dir_only []
    (fun _ => true).

Definition warning_config : LoggingConfig.t :=
  LoggingConfig.mk "WARNING" None "%(message)s" LogRotationConfig.default.


(* ================================================================== *)
(** ** The bounded history of the specification *)

Module History.

(** Modelled from the spec: the insertion into the bounded history of
    finalized QSOs, which the specification gives to the state store and
    the source does not have (class SystemState declares no history and
    the state machine it is meant for is not under src/).  The history
    is held most recent first; "completing or erroring a QSO moves it
    ... to the bounded history, evicting the oldest history entry if at
    capacity". *)
Definition insert (capacity : nat) (qso : QSO.t) (history : list QSO.t)
  : list QSO.t :=
  qso :: (if (capacity <=? List.length history)%nat
          then removelast history
          else history).

(** Modelled from the spec: the history after a sequence of
    finalizations, given in the order in which they happen, starting
    from the empty history of a fresh state. *)
Definition after (capacity : nat) (finalized : list QSO.t) : list QSO.t :=
  fold_left (fun history qso => insert capacity qso history) finalized [].


End History.

(* ================================================================== *)
(** * Properties *)

(** Goals [exists s' c', m s c = Return (tt, s', c') /\ P s' c'] where a
    lemma [run] gives the returned state and clock in closed form. *)
Ltac returns_by run := eexists; eexists; split; [apply run|].

(** ** QSO *)

Module QSOFacts.

(** What [complete] returns, by the outcome of the subtraction. *)
Lemma complete_run (end_time : option timestamp) (q : QSO.t) (c : Clock) :
  QSO.complete end_time q c =
  match datetime_sub (chosen_end end_time c) (QSO.start_time q) with
  | Return delta =>
      (QSO.set_status COMPLETED
         (QSO.set_duration_seconds (Some (total_seconds delta))
            (QSO.set_end_time (Some (chosen_end end_time c)) q)),
       clock_after end_time c, Return tt)
  | Raise x =>
      (QSO.set_end_time (Some (chosen_end end_time c)) q,
       clock_after end_time c, Raise x)
  end.
Proof.
  destruct end_time as [e|]; unfold QSO.complete, QSO.elapsed, QSO.or_now,
    ebind, eret, now, assign, read_self, lift; simpl;
    match goal with
    | |- context [datetime_sub ?a ?b] => destruct (datetime_sub a b)
    end; reflexivity.
Qed.

Lemma total_seconds_sign (d : timedelta) :
  (0 <= total_seconds d)%Q <-> 0 <= d.
Proof.
  unfold total_seconds, Qle; simpl. lia.
Qed.

(** The subtraction raises exactly on a mix of an aware and a naive
    value, and then raises [TypeError]. *)
Lemma datetime_sub_cases (a b : timestamp) :
  (mixed_awareness a b = false /\ exists delta, datetime_sub a b = Return delta)
  \/
  (mixed_awareness a b = true /\
   exists msg, datetime_sub a b = Raise (TypeError msg)).
Proof.
  unfold mixed_awareness, datetime_sub.
  destruct (same_tzinfo a b); simpl.
  - left. split; [reflexivity|eexists; reflexivity].
  - destruct (offset a), (offset b);
      [left|right|right|left]; (split; [reflexivity|eexists; reflexivity]).
Qed.

Lemma datetime_sub_naive (a b : datetime) :
  datetime_sub (naive a) (naive b) = Return (a - b).
Proof. reflexivity. Qed.

(** C1 (as the code has it): [complete] first sets [end_time] to the
    given end time, or to the clock's reading when none is given, and
    keeps [id] and [start_time].  When the end time and [start_time] can
    be subtracted, it returns, sets [duration_seconds] to their
    difference without clamping (so it is non-negative exactly when the
    difference is, which for two naive values means that the end is not
    before the start) and sets [status] to COMPLETED.  When one of the
    two is aware and the other naive, the subtraction raises [TypeError]
    and [duration_seconds] and [status] stay as they were.  A later call
    that returns sets the duration again, from its own end time. *)
Theorem complete_sets_fields
    (q : QSO.t) (c : Clock) (end_time : option timestamp) :
  exists q' c' r,
    QSO.complete end_time q c = (q', c', r) /\
    QSO.end_time q' = Some (chosen_end end_time c) /\
    QSO.id q' = QSO.id q /\
    QSO.start_time q' = QSO.start_time q /\
    ((mixed_awareness (chosen_end end_time c) (QSO.start_time q) = false /\
      r = Return tt /\
      QSO.status q' = COMPLETED /\
      exists delta,
        datetime_sub (chosen_end end_time c) (QSO.start_time q) = Return delta /\
        QSO.duration_seconds q' = Some (total_seconds delta) /\
        (Qle 0 (total_seconds delta) <-> 0 <= delta) /\
        (tz (chosen_end end_time c) = None -> tz (QSO.start_time q) = None ->
         delta = wall (chosen_end end_time c) - wall (QSO.start_time q)))
     \/
     (mixed_awareness (chosen_end end_time c) (QSO.start_time q) = true /\
      (exists msg, r = Raise (TypeError msg)) /\
      QSO.duration_seconds q' = QSO.duration_seconds q /\
      QSO.status q' = QSO.status q)) /\
    forall (again : option timestamp) (c2 : Clock),
    exists q'' c'' r2,
      QSO.complete again q' c2 = (q'', c'', r2) /\
      forall delta2,
        datetime_sub (chosen_end again c2) (QSO.start_time q) = Return delta2 ->
        r2 = Return tt /\
        QSO.duration_seconds q'' = Some (total_seconds delta2).
Proof.
  rewrite complete_run.
  destruct (datetime_sub_cases (chosen_end end_time c) (QSO.start_time q))
    as [[Hmix [delta E]]|[Hmix [msg E]]]; rewrite E.
  - eexists; eexists; eexists. split; [reflexivity|].
    do 3 (split; [reflexivity|]). split.
    + left. split; [exact Hmix|]. do 2 (split; [reflexivity|]).
      exists delta. split; [reflexivity|]. split; [reflexivity|].
      split; [apply total_seconds_sign|].
      intros H1 H2. unfold datetime_sub, same_tzinfo in E.
      rewrite H1, H2 in E. injection E as <-. reflexivity.
    + intros again c2. rewrite complete_run. simpl.
      destruct (datetime_sub (chosen_end again c2) (QSO.start_time q))
        as [d2|x]; eexists; eexists; eexists;
        (split; [reflexivity|]); intros delta2 H; [|discriminate H].
      injection H as <-. split; reflexivity.
  - eexists; eexists; eexists. split; [reflexivity|].
    do 3 (split; [reflexivity|]). split.
    + right. split; [exact Hmix|]. split; [exists msg; reflexivity|].
      split; reflexivity.
    + intros again c2. rewrite complete_run. simpl.
      destruct (datetime_sub (chosen_end again c2) (QSO.start_time q))
        as [d2|x]; eexists; eexists; eexists;
        (split; [reflexivity|]); intros delta2 H; [|discriminate H].
      injection H as <-. split; reflexivity.
Qed.

(** C1, counterexample: completing a QSO that started at second 10 with
    an end time of second 5 stores a duration of minus five seconds,
    not the clamped zero; completing it again at second 20 replaces
    that duration by ten seconds. *)
Lemma complete_duration_not_clamped :
  exists q' q'',
    QSO.complete (Some (naive 5000000)) qso_at_10 second_clock
      = (q', second_clock, Return tt) /\
    QSO.duration_seconds q' = Some (total_seconds (-5000000)) /\
    (total_seconds (-5000000) < 0)%Q /\
    QSO.duration_seconds q' <>
      Some (spec_clamped_duration (wall (QSO.start_time qso_at_10)) 5000000) /\
    QSO.complete (Some (naive 20000000)) q' second_clock
      = (q'', second_clock, Return tt) /\
    QSO.duration_seconds q'' = Some (total_seconds 10000000) /\
    QSO.duration_seconds q'' <> QSO.duration_seconds q'.
Proof.
  eexists; eexists.
  split; [reflexivity|]. split; [reflexivity|].
  split; [reflexivity|]. split; [discriminate|].
  split; [reflexivity|]. split; [reflexivity|discriminate].
Qed.

(** A QSO whose start time is aware, completed with the default end
    time: the subtraction raises after [end_time] has been assigned. *)
Example complete_aware_start_raises :
  QSO.complete None qso_aware_at_10 second_clock
  = (QSO.set_end_time (Some (naive 0)) qso_aware_at_10, tick second_clock,
     Raise (TypeError "can't subtract offset-naive and offset-aware datetimes")).
Proof. reflexivity. Qed.

Lemma QSOStatus_eqb_eq (a b : QSOStatus) : QSOStatus_eqb a b = true <-> a = b.
Proof.
  split.
  - destruct a, b; intros H; try reflexivity; discriminate H.
  - intros ->. destruct b; reflexivity.
Qed.

(** C4 (as the code has it): [is_active] reads the QSO without changing
    it and returns True exactly when the status is STARTING or ACTIVE. *)
Theorem is_active_iff (q : QSO.t) (c : Clock) :
  exists b : bool,
    QSO.is_active q c = Return (b, q, c) /\
    (b = true <-> QSO.status q = STARTING \/ QSO.status q = ACTIVE).
Proof.
  eexists. split; [reflexivity|].
  simpl. rewrite !orb_true_iff, !QSOStatus_eqb_eq.
  split.
  - intros [H|[H|H]]; [left|right|discriminate]; exact H.
  - intros [H|H]; [left|right; left]; exact H.
Qed.

(** C4, counterexample: a QSO whose status is ENDING is not reported as
    active. *)
Lemma is_active_ending_false :
  QSO.status qso_ending = ENDING /\
  QSO.is_active qso_ending second_clock = Return (false, qso_ending, second_clock).
Proof.
  split; reflexivity.
Qed.

(** C5 (as the code has it): [complete] has no guard on the status.
    A call that returns leaves [status], [end_time] and
    [duration_seconds] as they were exactly when the QSO was already
    COMPLETED with the call's end time and a duration that is the same
    number as the recomputed one; in every other case, so for every
    TIMEOUT or ERROR QSO, it overwrites them.  A call that raises,
    because one of end time and start time is aware and the other
    naive, has assigned [end_time] only. *)
Theorem complete_again_unchanged_iff
    (q : QSO.t) (c : Clock) (end_time : option timestamp) :
  exists q' c' r,
    QSO.complete end_time q c = (q', c', r) /\
    match datetime_sub (chosen_end end_time c) (QSO.start_time q) with
    | Return delta =>
        r = Return tt /\
        ((QSO.status q' = QSO.status q /\
          QSO.end_time q' = QSO.end_time q /\
          same_duration (QSO.duration_seconds q') (QSO.duration_seconds q))
         <->
         (QSO.status q = COMPLETED /\
          QSO.end_time q = Some (chosen_end end_time c) /\
          same_duration (QSO.duration_seconds q) (Some (total_seconds delta))))
    | Raise x =>
        r = Raise x /\
        mixed_awareness (chosen_end end_time c) (QSO.start_time q) = true /\
        QSO.end_time q' = Some (chosen_end end_time c) /\
        QSO.status q' = QSO.status q /\
        QSO.duration_seconds q' = QSO.duration_seconds q
    end.
Proof.
  rewrite complete_run.
  destruct (datetime_sub_cases (chosen_end end_time c) (QSO.start_time q))
    as [[Hmix [delta E]]|[Hmix [msg E]]]; rewrite E;
    eexists; eexists; eexists; (split; [reflexivity|]).
  - split; [reflexivity|]. simpl. split.
    + intros (H1 & H2 & H3). split; [congruence|]. split; [congruence|].
      destruct (QSO.duration_seconds q) as [d|]; simpl in *; [|contradiction].
      symmetry. exact H3.
    + intros (H1 & H2 & H3). split; [congruence|]. split; [congruence|].
      destruct (QSO.duration_seconds q) as [d|]; simpl in *; [|contradiction].
      symmetry. exact H3.
  - repeat split. exact Hmix.
Qed.

(** C5, counterexample: completing a QSO that is already in TIMEOUT,
    with the very end time it has, turns its status into COMPLETED. *)
Lemma complete_overwrites_timeout :
  QSO.status qso_timed_out = TIMEOUT /\
  exists q',
    QSO.complete (Some (naive 5000000)) qso_timed_out second_clock
      = (q', second_clock, Return tt) /\
    QSO.status q' = COMPLETED /\
    QSO.status q' <> QSO.status qso_timed_out.
Proof.
  split; [reflexivity|]. eexists.
  split; [reflexivity|]. split; [reflexivity|discriminate].
Qed.

(** A QSO completed at second 5 whose duration is held as the number 5
    is left as it is by a second [complete] at second 5. *)
Example complete_again_same_number :
  exists q',
    QSO.complete (Some (naive 5000000)) qso_completed_at_5 second_clock
      = (q', second_clock, Return tt) /\
    QSO.status q' = QSO.status qso_completed_at_5 /\
    QSO.end_time q' = QSO.end_time qso_completed_at_5 /\
    same_duration (QSO.duration_seconds q')
      (QSO.duration_seconds qso_completed_at_5).
Proof.
  eexists. split; [reflexivity|]. repeat split.
Qed.

End QSOFacts.

(** ** SystemState *)

Module SystemStateFacts.
Import SystemState.

Lemma UUID_eqb_eq (a b : UUID) : UUID_eqb a b = true <-> a = b.
Proof. apply Z.eqb_eq. Qed.

Lemma UUID_eqb_neq (a b : UUID) : UUID_eqb a b = false <-> a <> b.
Proof. apply Z.eqb_neq. Qed.

(** *** Lists split at an index *)

Section Split.
Context {A : Type}.

Lemma nth_error_middle (pre : list A) (x : A) (post : list A) :
  nth_error (pre ++ x :: post) (List.length pre) = Some x.
Proof. induction pre as [|y pre IH]; simpl; auto. Qed.

Lemma firstn_prefix (pre post : list A) :
  firstn (List.length pre) (pre ++ post) = pre.
Proof. induction pre as [|y pre IH]; simpl; [|rewrite IH]; auto. Qed.

Lemma skipn_past_middle (pre : list A) (x : A) (post : list A) :
  skipn (S (List.length pre)) (pre ++ x :: post) = post.
Proof. induction pre as [|y pre IH]; simpl; auto. Qed.
End Split.

(** A list either has no entry with the id, or splits at the first
    entry that has it. *)
Lemma first_match (qso_id : UUID) (l : list QSO.t) :
  Forall (other_id qso_id) l \/
  exists l1 q l2,
    l = l1 ++ q :: l2 /\ Forall (other_id qso_id) l1 /\ QSO.id q = qso_id.
Proof.
  induction l as [|x l IH].
  - left. constructor.
  - destruct (UUID_eqb (QSO.id x) qso_id) eqn:E.
    + right. exists [], x, l. apply UUID_eqb_eq in E. repeat split; auto.
    + apply UUID_eqb_neq in E.
      destruct IH as [IH|(l1 & q & l2 & -> & Hl1 & Hq)].
      * left. constructor; assumption.
      * right. exists (x :: l1), q, l2. repeat split; auto.
Qed.

Lemma miss_not_hit (qso_id : UUID) (l : list QSO.t) :
  Forall (other_id qso_id) l ->
  ~ Exists (fun q => QSO.id q = qso_id) l.
Proof.
  intros HF HE. apply Exists_exists in HE. destruct HE as (q & Hin & Hq).
  rewrite Forall_forall in HF. exact (HF q Hin Hq).
Qed.

(** *** The loops *)

Lemma remove_loop_miss (qso_id : UUID) (rest : list QSO.t) :
  Forall (other_id qso_id) rest ->
  forall (i : nat) (s : t) (c : Clock),
    remove_loop qso_id i rest s c = Return (None, s, c).
Proof.
  induction 1 as [|x rest Hx _ IH]; intros i s c; simpl.
  - reflexivity.
  - apply UUID_eqb_neq in Hx. rewrite Hx. apply IH.
Qed.

Lemma remove_loop_hit (qso_id : UUID) (q : QSO.t) (l2 : list QSO.t) :
  QSO.id q = qso_id ->
  forall (l1 : list QSO.t), Forall (other_id qso_id) l1 ->
  forall (pre : list QSO.t) (s : t) (c : Clock),
    active_qsos s = pre ++ l1 ++ q :: l2 ->
    remove_loop qso_id (List.length pre) (l1 ++ q :: l2) s c =
    Return (Some q,
            set_last_update (readings c (calls c))
              (set_active_qsos (pre ++ l1 ++ l2) s),
            tick c).
Proof.
  intros Hq l1 Hl1.
  induction Hl1 as [|x l1 Hx _ IH]; intros pre s c Hs; simpl.
  - apply UUID_eqb_eq in Hq. rewrite Hq.
    unfold bind, pop_active_qsos. simpl in Hs. rewrite Hs.
    rewrite nth_error_middle, firstn_prefix, skipn_past_middle.
    reflexivity.
  - apply UUID_eqb_neq in Hx. rewrite Hx.
    specialize (IH (pre ++ [x]) s c).
    rewrite length_app, Nat.add_1_r in IH.
    rewrite <- !app_assoc in IH. simpl in IH.
    apply IH. exact Hs.
Qed.

Lemma get_loop_miss (qso_id : UUID) (rest : list QSO.t) :
  Forall (other_id qso_id) rest ->
  forall (s : t) (c : Clock), get_loop qso_id rest s c = Return (None, s, c).
Proof.
  induction 1 as [|x rest Hx _ IH]; intros s c; simpl.
  - reflexivity.
  - apply UUID_eqb_neq in Hx. rewrite Hx. apply IH.
Qed.

Lemma get_loop_hit (qso_id : UUID) (q : QSO.t) (l2 : list QSO.t) :
  QSO.id q = qso_id ->
  forall (l1 : list QSO.t), Forall (other_id qso_id) l1 ->
  forall (s : t) (c : Clock),
    get_loop qso_id (l1 ++ q :: l2) s c = Return (Some q, s, c).
Proof.
  intros Hq l1 Hl1.
  induction Hl1 as [|x l1 Hx _ IH]; intros s c; simpl.
  - apply UUID_eqb_eq in Hq. rewrite Hq. reflexivity.
  - apply UUID_eqb_neq in Hx. rewrite Hx. apply IH.
Qed.

(** *** What each method returns *)

Lemma add_active_qso_run (qso : QSO.t) (s : t) (c : Clock) :
  add_active_qso qso s c =
  Return (tt,
          set_last_update (readings c (calls c))
            (set_active_qsos (active_qsos s ++ [qso]) s),
          tick c).
Proof. reflexivity. Qed.

Lemma record_error_run (msg : string) (s : t) (c : Clock) :
  record_error msg s c =
  Return (tt,
          mk (current_mode s) (modem_state s) (active_qsos s) (mode_status s)
             (readings c (S (calls c))) (uptime_seconds s)
             (error_count s + 1) (Some msg) (Some (readings c (calls c))),
          tick (tick c)).
Proof. reflexivity. Qed.

Lemma remove_active_qso_miss (qso_id : UUID) (s : t) (c : Clock) :
  Forall (other_id qso_id) (active_qsos s) ->
  remove_active_qso qso_id s c = Return (None, s, c).
Proof.
  intros H. unfold remove_active_qso, bind, get_self.
  apply remove_loop_miss, H.
Qed.

Lemma remove_active_qso_hit
    (qso_id : UUID) (s : t) (c : Clock) (l1 : list QSO.t) (q : QSO.t)
    (l2 : list QSO.t) :
  active_qsos s = l1 ++ q :: l2 ->
  Forall (other_id qso_id) l1 ->
  QSO.id q = qso_id ->
  remove_active_qso qso_id s c =
  Return (Some q,
          set_last_update (readings c (calls c)) (set_active_qsos (l1 ++ l2) s),
          tick c).
Proof.
  intros Hs Hl1 Hq. unfold remove_active_qso, bind, get_self.
  rewrite Hs at 1.
  apply (remove_loop_hit qso_id q l2 Hq l1 Hl1 [] s c). exact Hs.
Qed.

(** One operation never raises, and changes [active_qsos] as follows. *)
Lemma step_active (op : Op) (s : t) (c : Clock) :
  exists s' c',
    step op s c = Return (tt, s', c') /\
    match op with
    | AddActiveQso qso => active_qsos s' = active_qsos s ++ [qso]
    | RemoveActiveQso qso_id =>
        (Forall (other_id qso_id) (active_qsos s) /\ s' = s) \/
        (exists l1 q l2,
            active_qsos s = l1 ++ q :: l2 /\ active_qsos s' = l1 ++ l2 /\
            Forall (other_id qso_id) l1 /\ QSO.id q = qso_id)
    | RecordError _ => active_qsos s' = active_qsos s
    end.
Proof.
  destruct op as [qso|qso_id|msg]; simpl.
  - returns_by add_active_qso_run. reflexivity.
  - destruct (first_match qso_id (active_qsos s))
      as [Hmiss|(l1 & q & l2 & Hs & Hl1 & Hq)].
    + exists s, c. unfold bind at 1.
      rewrite (remove_active_qso_miss _ _ _ Hmiss). split; [reflexivity|].
      left. split; [assumption|reflexivity].
    + eexists; eexists. unfold bind at 1.
      rewrite (remove_active_qso_hit _ _ _ _ _ _ Hs Hl1 Hq).
      split; [reflexivity|]. right. exists l1, q, l2. simpl. auto.
  - returns_by record_error_run. reflexivity.
Qed.

(** One operation never raises; it leaves the clock's readings alone
    and either keeps [last_update] or overwrites it with one of the
    readings it consumed. *)
Lemma step_clock (op : Op) (s : t) (c : Clock) :
  exists s' c',
    step op s c = Return (tt, s', c') /\
    readings c' = readings c /\
    (calls c <= calls c')%nat /\
    (last_update s' = last_update s \/
     exists k : nat,
       (calls c <= k < calls c')%nat /\ last_update s' = readings c k).
Proof.
  destruct op as [qso|qso_id|msg]; simpl.
  - returns_by add_active_qso_run.
    simpl. repeat split; [lia|]. right. exists (calls c). split; [lia|reflexivity].
  - destruct (first_match qso_id (active_qsos s))
      as [Hmiss|(l1 & q & l2 & Hs & Hl1 & Hq)].
    + exists s, c. unfold bind at 1.
      rewrite (remove_active_qso_miss _ _ _ Hmiss). auto.
    + eexists; eexists. unfold bind at 1.
      rewrite (remove_active_qso_hit _ _ _ _ _ _ Hs Hl1 Hq).
      split; [reflexivity|]. simpl. repeat split; [lia|].
      right. exists (calls c). split; [lia|reflexivity].
  - returns_by record_error_run.
    simpl. repeat split; [lia|]. right. exists (S (calls c)).
    split; [lia|reflexivity].
Qed.

Lemma trace_head (ops : list Op) (s : t) (c : Clock) :
  exists rest, trace ops s c = s :: rest.
Proof. destruct ops; simpl; eexists; reflexivity. Qed.

(** A run visits one state per operation, after the starting one: no
    operation stops it. *)
Lemma trace_length (ops : list Op) :
  forall (s : t) (c : Clock),
    List.length (trace ops s c) = S (List.length ops).
Proof.
  induction ops as [|op ops IH]; intros s c; simpl.
  - reflexivity.
  - destruct (step_active op s c) as (s' & c' & E & _).
    rewrite E, IH. reflexivity.
Qed.

Lemma trace_from_create_length (ops : list Op) (c : Clock) :
  List.length (trace_from_create ops c) = S (List.length ops).
Proof. unfold trace_from_create. simpl. apply trace_length. Qed.

(** *** Unique ids *)

Lemma NoDup_snoc {A : Type} (l : list A) (x : A) :
  NoDup l -> ~ In x l -> NoDup (l ++ [x]).
Proof.
  induction 1 as [|y l Hy Hl IH]; intros Hx; simpl.
  - constructor; [intros []|constructor].
  - constructor.
    + rewrite in_app_iff. intros [H|[H|[]]]; [exact (Hy H)|].
      apply Hx. left. symmetry. exact H.
    + apply IH. intros H. apply Hx. right. exact H.
Qed.

Lemma fresh_not_in (x : UUID) (ids : list UUID) :
  negb (existsb (UUID_eqb x) ids) = true -> ~ In x ids.
Proof.
  rewrite negb_true_iff. intros H Hin.
  assert (E : existsb (UUID_eqb x) ids = true).
  { apply existsb_exists. exists x. split; [exact Hin|].
    apply UUID_eqb_eq. reflexivity. }
  congruence.
Qed.

Lemma trace_unique (ops : list Op) :
  forall (s : t) (c : Clock),
    NoDup (active_ids s) ->
    adds_fresh ops s c = true ->
    Forall (fun s' => NoDup (active_ids s')) (trace ops s c).
Proof.
  induction ops as [|op ops IH]; intros s c Hs Hfresh; simpl.
  - constructor; [exact Hs|constructor].
  - constructor; [exact Hs|].
    simpl in Hfresh. apply andb_true_iff in Hfresh.
    destruct Hfresh as [Hop Hrest].
    destruct (step_active op s c) as (s' & c' & E & Hact).
    rewrite E in *. apply IH; [|exact Hrest].
    unfold active_ids in *.
    destruct op as [qso|qso_id|msg].
    + rewrite Hact, map_app. simpl.
      apply NoDup_snoc; [exact Hs|]. apply fresh_not_in, Hop.
    + destruct Hact as [[_ ->]|(l1 & q & l2 & E1 & E2 & _)]; [exact Hs|].
      rewrite E1, map_app in Hs. simpl in Hs.
      rewrite E2, map_app. eapply NoDup_remove_1, Hs.
    + rewrite Hact. exact Hs.
Qed.

(** C2 (as the code has it): [add_active_qso] appends without looking
    at the ids already present.  In every run from the initial empty
    state in which each [add_active_qso] is given a QSO whose id is not
    the id of a QSO active at that moment, no operation raises and no
    state of the run has two active QSOs with the same id. *)
Theorem active_ids_unique_when_adds_fresh (ops : list Op) (c : Clock) :
  adds_fresh_from_create ops c = true ->
  List.length (trace_from_create ops c) = S (List.length ops) /\
  Forall (fun s => NoDup (active_ids s)) (trace_from_create ops c).
Proof.
  intros H. split; [apply trace_from_create_length|].
  unfold trace_from_create, adds_fresh_from_create in *. simpl in *.
  apply trace_unique; [constructor|exact H].
Qed.

Lemma active_ids_unique_when_adds_fresh_witness :
  adds_fresh_from_create sample_ops second_clock = true /\
  List.length (trace_from_create sample_ops second_clock)
    = S (List.length sample_ops) /\
  Forall (fun s => NoDup (active_ids s))
    (trace_from_create sample_ops second_clock).
Proof.
  split; [reflexivity|].
  apply (active_ids_unique_when_adds_fresh sample_ops second_clock).
  reflexivity.
Defined.

(** C2, counterexample: adding two QSOs that carry the same id, from
    the initial empty state, leaves both in [active_qsos]. *)
Lemma add_active_qso_keeps_duplicate_id :
  exists s,
    In s (trace_from_create clashing_ops second_clock) /\
    active_qsos s = [qso_a; qso_a'] /\
    active_ids s = [7; 7] /\
    ~ NoDup (active_ids s).
Proof.
  eexists. split; [right; right; left; reflexivity|].
  split; [reflexivity|]. split; [reflexivity|].
  intros H. inversion H as [|x l Hin _]. apply Hin. left. reflexivity.
Qed.

(** *** last_update *)

Lemma monotone_same_readings (c c' : Clock) :
  readings c' = readings c -> monotone c -> monotone c'.
Proof. unfold monotone. intros ->. auto. Qed.

Lemma trace_last_update_sorted (ops : list Op) :
  forall (s : t) (c : Clock),
    monotone c ->
    last_update s <= readings c (calls c) ->
    Sorted Z.le (map last_update (trace ops s c)).
Proof.
  induction ops as [|op ops IH]; intros s c Hmono Hs; simpl.
  - repeat constructor.
  - destruct (step_clock op s c) as (s' & c' & E & Hr & Hcalls & Hlu).
    rewrite E.
    assert (Hle : last_update s <= last_update s' /\
                  last_update s' <= readings c' (calls c')).
    { rewrite Hr. destruct Hlu as [->|(k & Hk & ->)].
      - split; [lia|]. etransitivity; [exact Hs|]. apply Hmono, Hcalls.
      - split.
        + etransitivity; [exact Hs|]. apply Hmono. lia.
        + apply Hmono. lia. }
    destruct Hle as [Hstep Hs'].
    specialize (IH s' c' (monotone_same_readings c c' Hr Hmono) Hs').
    constructor; [exact IH|].
    destruct (trace_head ops s' c') as (rest & ->). simpl.
    constructor. exact Hstep.
Qed.

(** Runs from the state that [SystemState()] builds: under a monotone
    clock no operation raises and each state's [last_update] is at
    least that of the state before it. *)
Theorem last_update_non_decreasing (ops : list Op) (c : Clock) :
  monotone c ->
  List.length (trace_from_create ops c) = S (List.length ops) /\
  Sorted Z.le (map last_update (trace_from_create ops c)).
Proof.
  intros Hmono. split; [apply trace_from_create_length|].
  unfold trace_from_create. simpl.
  apply trace_last_update_sorted.
  - apply (monotone_same_readings c); [reflexivity|exact Hmono].
  - simpl. apply Hmono. lia.
Qed.

Lemma last_update_non_decreasing_witness :
  monotone second_clock /\
  List.length (trace_from_create sample_ops second_clock)
    = S (List.length sample_ops) /\
  Sorted Z.le (map last_update (trace_from_create sample_ops second_clock)).
Proof.
  assert (Hmono : monotone second_clock).
  { intros i j Hij. simpl. lia. }
  split; [exact Hmono|].
  exact (last_update_non_decreasing sample_ops second_clock Hmono).
Defined.

(** C7 (as the code has it): the operations stamp [last_update] with
    the clock's reading without looking at the value it had.  Under a
    monotone clock, in every run of [add_active_qso],
    [remove_active_qso] and [record_error] from a state whose
    [last_update] is not after the next reading of the clock, no
    operation raises and each state's [last_update] is at least that of
    the state before it; the state that [SystemState()] builds is such a
    state. *)
Theorem last_update_non_decreasing_when_not_ahead
    (ops : list Op) (s : t) (c : Clock) :
  monotone c ->
  last_update s <= readings c (calls c) ->
  List.length (trace ops s c) = S (List.length ops) /\
  Sorted Z.le (map last_update (trace ops s c)) /\
  last_update (fst (create c))
  <= readings (snd (create c)) (calls (snd (create c))).
Proof.
  intros Hmono Hs. split; [apply trace_length|].
  split; [apply trace_last_update_sorted; assumption|].
  simpl. apply Hmono. lia.
Qed.

Lemma last_update_non_decreasing_when_not_ahead_witness :
  monotone fresh_clock /\
  last_update fresh_state <= readings fresh_clock (calls fresh_clock) /\
  List.length (trace sample_ops fresh_state fresh_clock)
    = S (List.length sample_ops) /\
  Sorted Z.le (map last_update (trace sample_ops fresh_state fresh_clock)) /\
  last_update (fst (create fresh_clock))
  <= readings (snd (create fresh_clock)) (calls (snd (create fresh_clock))).
Proof.
  assert (Hmono : monotone fresh_clock).
  { intros i j Hij. simpl. lia. }
  assert (Hs : last_update fresh_state <= readings fresh_clock (calls fresh_clock)).
  { simpl. lia. }
  split; [exact Hmono|]. split; [exact Hs|].
  exact (last_update_non_decreasing_when_not_ahead sample_ops fresh_state
           fresh_clock Hmono Hs).
Defined.

(** C7, counterexample: a state constructed with a [last_update] ahead
    of the clock.  The clock is monotone, and the first operation that
    stamps the state lowers [last_update]. *)
Lemma last_update_decreases_when_ahead :
  monotone fresh_clock /\
  map last_update
      (trace [RecordError "e"; AddActiveQso qso_b] state_ahead_of_clock
         fresh_clock)
  = [99000000; 2000000; 3000000] /\
  ~ Sorted Z.le
      (map last_update
         (trace [RecordError "e"; AddActiveQso qso_b] state_ahead_of_clock
            fresh_clock)).
Proof.
  split; [intros i j Hij; simpl; lia|]. split; [reflexivity|].
  intros H. simpl in H. inversion H as [|a l _ Hhd]; subst.
  inversion Hhd as [|b l' Hle]; subst. lia.
Qed.

(** The clock hypothesis is needed: when the clock runs backwards, so
    does [last_update]. *)
Example last_update_follows_backward_clock :
  map last_update
      (trace_from_create [RecordError "e"; AddActiveQso qso_b] backward_clock)
  = [0; -2; -3].
Proof. reflexivity. Qed.

(** *** record_error *)

(** C6: [record_error] never raises; it adds one to [error_count],
    stores the message in [last_error] and the clock's reading in
    [last_error_time], stamps [last_update] with the next reading and
    leaves the other fields as they were. *)
Theorem record_error_counts (s : t) (c : Clock) (error_message : string) :
  exists s' c',
    record_error error_message s c = Return (tt, s', c') /\
    error_count s' = error_count s + 1 /\
    last_error s' = Some error_message /\
    last_error_time s' = Some (readings c (calls c)) /\
    last_update s' = readings c (S (calls c)) /\
    active_qsos s' = active_qsos s /\
    current_mode s' = current_mode s /\
    modem_state s' = modem_state s /\
    mode_status s' = mode_status s /\
    uptime_seconds s' = uptime_seconds s.
Proof.
  returns_by record_error_run.
  simpl. repeat split.
Qed.

(** *** remove_active_qso and get_active_qso_by_id *)

(** C9: when no active QSO has the id, [remove_active_qso] returns None
    and leaves the state and the clock untouched; when some has it, the
    first such QSO is returned, exactly that entry leaves
    [active_qsos], [last_update] takes the clock's reading and every
    other field is as before. *)
Theorem remove_active_qso_atomic (s : t) (c : Clock) (qso_id : UUID) :
  (Forall (other_id qso_id) (active_qsos s) ->
   remove_active_qso qso_id s c = Return (None, s, c))
  /\
  (Exists (fun q => QSO.id q = qso_id) (active_qsos s) ->
   exists l1 q l2,
     active_qsos s = l1 ++ q :: l2 /\
     Forall (other_id qso_id) l1 /\
     QSO.id q = qso_id /\
     remove_active_qso qso_id s c =
     Return (Some q,
             mk (current_mode s) (modem_state s) (l1 ++ l2) (mode_status s)
                (readings c (calls c)) (uptime_seconds s) (error_count s)
                (last_error s) (last_error_time s),
             tick c)).
Proof.
  split.
  - apply remove_active_qso_miss.
  - intros Hex.
    destruct (first_match qso_id (active_qsos s))
      as [Hmiss|(l1 & q & l2 & Hs & Hl1 & Hq)].
    + destruct (miss_not_hit _ _ Hmiss Hex).
    + exists l1, q, l2. repeat split; try assumption.
      apply (remove_active_qso_hit _ _ _ _ _ _ Hs Hl1 Hq).
Qed.

Lemma remove_active_qso_atomic_witness :
  (Forall (other_id 99) (active_qsos fresh_state) /\
   remove_active_qso 99 fresh_state fresh_clock
     = Return (None, fresh_state, fresh_clock))
  /\
  (Exists (fun q => QSO.id q = 7)
     (active_qsos (set_active_qsos [qso_b; qso_a; qso_a'] fresh_state)) /\
   exists l1 q l2,
     [qso_b; qso_a; qso_a'] = l1 ++ q :: l2 /\
     Forall (other_id 7) l1 /\
     QSO.id q = 7 /\
     remove_active_qso 7 (set_active_qsos [qso_b; qso_a; qso_a'] fresh_state)
       fresh_clock =
     Return (Some q,
             mk IDLE Modem_UNKNOWN (l1 ++ l2) [] 1000000 None 0 None None,
             tick fresh_clock)).
Proof.
  split.
  - assert (H : Forall (other_id 99) (active_qsos fresh_state))
      by constructor.
    split; [exact H|].
    exact (proj1 (remove_active_qso_atomic fresh_state fresh_clock 99) H).
  - assert (H : Exists (fun q => QSO.id q = 7)
                  (active_qsos
                     (set_active_qsos [qso_b; qso_a; qso_a'] fresh_state))).
    { simpl. right. left. reflexivity. }
    split; [exact H|].
    exact (proj2 (remove_active_qso_atomic
                    (set_active_qsos [qso_b; qso_a; qso_a'] fresh_state)
                    fresh_clock 7) H).
Defined.

(** C10: [get_active_qso_by_id] never raises and leaves the state and
    the clock untouched; it returns the first active QSO carrying the
    id, and None when there is none. *)
Theorem get_active_qso_by_id_pure (s : t) (c : Clock) (qso_id : UUID) :
  exists r : option QSO.t,
    get_active_qso_by_id qso_id s c = Return (r, s, c) /\
    match r with
    | Some q =>
        exists l1 l2,
          active_qsos s = l1 ++ q :: l2 /\
          Forall (other_id qso_id) l1 /\
          QSO.id q = qso_id
    | None => Forall (other_id qso_id) (active_qsos s)
    end.
Proof.
  unfold get_active_qso_by_id, bind, get_self.
  destruct (first_match qso_id (active_qsos s))
    as [Hmiss|(l1 & q & l2 & Hs & Hl1 & Hq)].
  - exists None. split; [apply get_loop_miss, Hmiss|exact Hmiss].
  - exists (Some q). split.
    + rewrite Hs. apply get_loop_hit; assumption.
    + exists l1, l2. auto.
Qed.

End SystemStateFacts.

(** ** Configuration *)

Module ConfigFacts.
Import StateMachineConfig.

Lemma validate_history_size_cases (v : Z) :
  (1 <= v <= 10000 /\ validate_history_size v = Return v) \/
  (~ (1 <= v <= 10000) /\
   validate_history_size v
     = Raise (ValueError "qso_history_size must be between 1 and 10000")).
Proof.
  unfold validate_history_size.
  destruct (v <? 1) eqn:E1; destruct (v >? 10000) eqn:E2; simpl;
    rewrite ?Z.ltb_lt, ?Z.ltb_ge in E1; rewrite Z.gtb_ltb in E2;
    rewrite ?Z.ltb_lt, ?Z.ltb_ge in E2;
    [right|right|right|left]; (split; [lia|reflexivity]).
Qed.

Lemma validate_timeout_cases (v : Z) :
  (1 <= v <= 3600 /\ validate_timeout v = Return v) \/
  (~ (1 <= v <= 3600) /\
   validate_timeout v
     = Raise (ValueError "qso_timeout_seconds must be between 1 and 3600")).
Proof.
  unfold validate_timeout.
  destruct (v <? 1) eqn:E1; destruct (v >? 3600) eqn:E2; simpl;
    rewrite ?Z.ltb_lt, ?Z.ltb_ge in E1; rewrite Z.gtb_ltb in E2;
    rewrite ?Z.ltb_lt, ?Z.ltb_ge in E2;
    [right|right|right|left]; (split; [lia|reflexivity]).
Qed.

Lemma create_accepts_iff (h s : Z) (modes : option (list string)) :
  (exists cfg, create (Some h) (Some s) modes = Return cfg) <->
  1 <= h <= 10000 /\ 1 <= s <= 3600.
Proof.
  unfold create, field.
  destruct (validate_history_size_cases h) as [[Hh ->]|[Hh ->]];
    destruct (validate_timeout_cases s) as [[Hs ->]|[Hs ->]]; simpl;
    (split; [intros [cfg E]; try discriminate E; auto
            |intros [H1 H2]; try contradiction; eexists; reflexivity]).
Qed.

(** C8: [validate_history_size] returns its argument exactly when it is
    between 1 and 10000 and raises otherwise; [validate_timeout]
    likewise for 1 to 3600; a [StateMachineConfig] is built from
    supplied values exactly when both are in range, and the assembly
    of [Config] returns no object when either is out of range. *)
Theorem validation_accepts_exactly_the_ranges :
  (forall v : Z, validate_history_size v = Return v <-> 1 <= v <= 10000) /\
  (forall v : Z,
      (exists e, validate_history_size v = Raise e) <-> ~ (1 <= v <= 10000)) /\
  (forall v : Z, validate_timeout v = Return v <-> 1 <= v <= 3600) /\
  (forall v : Z,
      (exists e, validate_timeout v = Raise e) <-> ~ (1 <= v <= 3600)) /\
  (forall (h s : Z) (modes : option (list string)),
      (exists cfg, create (Some h) (Some s) modes = Return cfg) <->
      1 <= h <= 10000 /\ 1 <= s <= 3600) /\
  (forall (h s : Z) (modes : option (list string)),
      ~ (1 <= h <= 10000 /\ 1 <= s <= 3600) ->
      exists errors,
        create (Some h) (Some s) modes = Raise (ValidationError errors) /\
        errors <> []) /\
  (forall (LM AP WS LG PF : Type)
          (lm : outcome LM) (ap : outcome AP) (ws : outcome WS)
          (lg : outcome LG) (pf : outcome PF)
          (h s : Z) (modes : option (list string)),
      ~ (1 <= h <= 10000 /\ 1 <= s <= 3600) ->
      exists e,
        Config.from_sections LM AP WS LG PF lm (Some h) (Some s) modes
          ap ws lg pf = Raise e).
Proof.
  split; [|split; [|split; [|split; [|split; [|split]]]]].
  - intros v. destruct (validate_history_size_cases v) as [[H ->]|[H ->]];
      split; intros H'; try discriminate H'; auto; contradiction.
  - intros v. destruct (validate_history_size_cases v) as [[H ->]|[H ->]];
      split; intros H'; auto.
    + destruct H' as [e H']. discriminate H'.
    + contradiction.
    + eexists; reflexivity.
  - intros v. destruct (validate_timeout_cases v) as [[H ->]|[H ->]];
      split; intros H'; try discriminate H'; auto; contradiction.
  - intros v. destruct (validate_timeout_cases v) as [[H ->]|[H ->]];
      split; intros H'; auto.
    + destruct H' as [e H']. discriminate H'.
    + contradiction.
    + eexists; reflexivity.
  - apply create_accepts_iff.
  - intros h s modes Hout. unfold create, field.
    destruct (validate_history_size_cases h) as [[Hh ->]|[Hh ->]];
      destruct (validate_timeout_cases s) as [[Hs ->]|[Hs ->]]; simpl;
      try (exfalso; apply Hout; split; assumption);
      eexists; (split; [reflexivity|discriminate]).
  - intros LM AP WS LG PF lm ap ws lg pf h s modes Hout.
    unfold Config.from_sections.
    destruct lm as [lm'|e]; simpl; [|eexists; reflexivity].
    destruct (create (Some h) (Some s) modes) as [cfg|e] eqn:E;
      simpl; [|eexists; reflexivity].
    exfalso. apply Hout. apply (create_accepts_iff h s modes).
    exists cfg. exact E.
Qed.

End ConfigFacts.

(** ** The bounded history *)

Module HistoryFacts.
Import History.






(** Scenario E of the specification: capacity 2, three QSOs finalized in
    the order A, B, C; the history is C, B and A has been evicted. *)
Example history_scenario_e :
  after 2 [qso_a; qso_b; qso_at_10] = [qso_at_10; qso_b].
Proof. reflexivity. Qed.

End HistoryFacts.

(** ** The repository's unit tests, replayed on the embedding *)

Module RepositoryTests.
Import SystemState.

(** test_qso_complete: an end time 2.5 seconds after the start. *)
Example test_qso_complete :
  exists q',
    QSO.complete (Some (naive (10000000 + 2500000))) qso_at_10 second_clock
      = (q', second_clock, Return tt) /\
    QSO.status q' = COMPLETED /\
    QSO.end_time q' = Some (naive 12500000) /\
    exists d, QSO.duration_seconds q' = Some d /\ Qeq d (5 # 2).
Proof.
  eexists. repeat split. eexists. split; reflexivity.
Qed.

(** test_qso_complete_default_time: the clock stands at second 12 when a
    QSO started at second 10 is completed without an end time. *)
Example test_qso_complete_default_time :
  exists q' d,
    QSO.complete None qso_at_10 (mkClock (readings second_clock) 12)
      = (q', mkClock (readings second_clock) 13, Return tt) /\
    QSO.status q' = COMPLETED /\
    QSO.end_time q' = Some (naive 12000000) /\
    QSO.duration_seconds q' = Some d /\ Qle 0 d.
Proof.
  eexists; eexists. repeat split. discriminate.
Qed.

(** test_qso_is_active *)
Example test_qso_is_active :
  forall c : Clock,
    map (fun st => QSO.is_active (QSO.set_status st qso_a) c)
        [STARTING; ACTIVE; COMPLETED; TIMEOUT]
    = [Return (true, QSO.set_status STARTING qso_a, c);
       Return (true, QSO.set_status ACTIVE qso_a, c);
       Return (false, QSO.set_status COMPLETED qso_a, c);
       Return (false, QSO.set_status TIMEOUT qso_a, c)].
Proof. reflexivity. Qed.

(** test_add_active_qso, test_remove_active_qso *)
Example test_remove_active_qso :
  exists s1 c1 s2 c2 s3 c3,
    add_active_qso qso_a fresh_state fresh_clock = Return (tt, s1, c1) /\
    active_qsos s1 = [qso_a] /\
    add_active_qso qso_b s1 c1 = Return (tt, s2, c2) /\
    remove_active_qso (QSO.id qso_a) s2 c2 = Return (Some qso_a, s3, c3) /\
    active_qsos s3 = [qso_b].
Proof.
  do 6 eexists. repeat split.
Qed.

(** test_remove_nonexistent_qso *)
Example test_remove_nonexistent_qso :
  exists s1 c1,
    add_active_qso qso_a fresh_state fresh_clock = Return (tt, s1, c1) /\
    remove_active_qso 99 s1 c1 = Return (None, s1, c1) /\
    List.length (active_qsos s1) = 1%nat.
Proof.
  do 2 eexists. repeat split.
Qed.

(** test_get_active_qso_by_id *)
Example test_get_active_qso_by_id :
  exists s1 c1 s2 c2,
    add_active_qso qso_a fresh_state fresh_clock = Return (tt, s1, c1) /\
    add_active_qso qso_b s1 c1 = Return (tt, s2, c2) /\
    get_active_qso_by_id (QSO.id qso_b) s2 c2 = Return (Some qso_b, s2, c2).
Proof.
  do 4 eexists. repeat split.
Qed.

(** test_record_error *)
Example test_record_error :
  exists s1 c1 s2 c2,
    record_error "Test error message" fresh_state fresh_clock
      = Return (tt, s1, c1) /\
    error_count s1 = 1 /\
    last_error s1 = Some "Test error message" /\
    last_error_time s1 <> None /\
    record_error "Second error" s1 c1 = Return (tt, s2, c2) /\
    error_count s2 = 2 /\
    last_error s2 = Some "Second error".
Proof.
  do 4 eexists. repeat split. discriminate.
Qed.

(** test_state_machine_defaults, test_history_size_validation,
    test_timeout_validation *)
Example test_state_machine_config :
  StateMachineConfig.create None None None
    = Return (StateMachineConfig.mk 100 30 StateMachineConfig.default_modes) /\
  StateMachineConfig.create (Some 50) None None
    = Return (StateMachineConfig.mk 50 30 StateMachineConfig.default_modes) /\
  StateMachineConfig.create None (Some 60) None
    = Return (StateMachineConfig.mk 100 60 StateMachineConfig.default_modes) /\
  StateMachineConfig.create (Some 0) None None
    = Raise (ValidationError ["qso_history_size must be between 1 and 10000"]) /\
  StateMachineConfig.create (Some 100000) None None
    = Raise (ValidationError ["qso_history_size must be between 1 and 10000"]) /\
  StateMachineConfig.create None (Some 0) None
    = Raise (ValidationError ["qso_timeout_seconds must be between 1 and 3600"]) /\
  StateMachineConfig.create None (Some 7200) None
    = Raise (ValidationError ["qso_timeout_seconds must be between 1 and 3600"]).
Proof. repeat split. Qed.

End RepositoryTests.

(** ** How the operations of models.py compose *)

Module ModelsExtra.
Import SystemState.
Import Run.

Lemma get_by_id_miss (qso_id : UUID) (s : t) (c : Clock) :
  Forall (other_id qso_id) (active_qsos s) ->
  get_active_qso_by_id qso_id s c = Return (None, s, c).
Proof.
  intros H. unfold get_active_qso_by_id, bind, get_self.
  apply SystemStateFacts.get_loop_miss, H.
Qed.

Lemma get_by_id_hit (qso_id : UUID) (s : t) (c : Clock)
    (l1 : list QSO.t) (q : QSO.t) (l2 : list QSO.t) :
  active_qsos s = l1 ++ q :: l2 ->
  Forall (other_id qso_id) l1 ->
  QSO.id q = qso_id ->
  get_active_qso_by_id qso_id s c = Return (Some q, s, c).
Proof.
  intros Hs Hl1 Hq. unfold get_active_qso_by_id, bind, get_self.
  rewrite Hs at 1. apply SystemStateFacts.get_loop_hit; assumption.
Qed.

Lemma hit_not_miss (qso_id : UUID) (l1 : list QSO.t) (q : QSO.t)
    (l2 : list QSO.t) :
  QSO.id q = qso_id -> ~ Forall (other_id qso_id) (l1 ++ q :: l2).
Proof.
  intros Hq HF. rewrite Forall_forall in HF.
  apply (HF q); [|exact Hq]. apply in_or_app. right. left. reflexivity.
Qed.

(** The state and clock each operation returns, case by case. *)
Lemma step_cases (op : Op) (s : t) (c : Clock) :
  match op with
  | AddActiveQso qso =>
      step op s c =
      Return (tt,
              set_last_update (readings c (calls c))
                (set_active_qsos (active_qsos s ++ [qso]) s),
              tick c)
  | RemoveActiveQso qso_id =>
      (Forall (other_id qso_id) (active_qsos s) /\
       step op s c = Return (tt, s, c))
      \/
      (exists l1 q l2,
          active_qsos s = l1 ++ q :: l2 /\
          Forall (other_id qso_id) l1 /\ QSO.id q = qso_id /\
          step op s c =
          Return (tt,
                  set_last_update (readings c (calls c))
                    (set_active_qsos (l1 ++ l2) s),
                  tick c))
  | RecordError msg =>
      step op s c =
      Return (tt,
              mk (current_mode s) (modem_state s) (active_qsos s)
                 (mode_status s) (readings c (S (calls c))) (uptime_seconds s)
                 (error_count s + 1) (Some msg) (Some (readings c (calls c))),
              tick (tick c))
  end.
Proof.
  destruct op as [qso|qso_id|msg]; simpl.
  - reflexivity.
  - destruct (SystemStateFacts.first_match qso_id (active_qsos s))
      as [Hmiss|(l1 & q & l2 & Hs & Hl1 & Hq)].
    + left. split; [exact Hmiss|]. unfold bind at 1.
      rewrite (SystemStateFacts.remove_active_qso_miss _ _ _ Hmiss).
      reflexivity.
    + right. exists l1, q, l2. repeat split; try assumption.
      unfold bind at 1.
      rewrite (SystemStateFacts.remove_active_qso_hit _ _ _ _ _ _ Hs Hl1 Hq).
      reflexivity.
  - reflexivity.
Qed.

(** X1: looking an id up right after adding a QSO with it always finds a
    QSO with that id: the added one when the id was not active before,
    and otherwise the older QSO that the lookup already returned. *)
Theorem get_after_add (s : t) (c : Clock) (q : QSO.t) :
  exists s1 c1 r,
    add_active_qso q s c = Return (tt, s1, c1) /\
    get_active_qso_by_id (QSO.id q) s1 c1 = Return (Some r, s1, c1) /\
    QSO.id r = QSO.id q /\
    (Forall (other_id (QSO.id q)) (active_qsos s) -> r = q) /\
    (forall old,
        get_active_qso_by_id (QSO.id q) s c = Return (Some old, s, c) ->
        r = old).
Proof.
  destruct (SystemStateFacts.first_match (QSO.id q) (active_qsos s))
    as [Hmiss|(l1 & q0 & l2 & Hs & Hl1 & Hq0)].
  - eexists; eexists; exists q.
    split; [apply SystemStateFacts.add_active_qso_run|].
    split; [|split; [reflexivity|split; [reflexivity|]]].
    + apply (get_by_id_hit _ _ _ (active_qsos s) q []);
        [reflexivity|exact Hmiss|reflexivity].
    + intros old Hold. rewrite (get_by_id_miss _ _ _ Hmiss) in Hold.
      discriminate Hold.
  - eexists; eexists; exists q0.
    split; [apply SystemStateFacts.add_active_qso_run|].
    split; [|split; [exact Hq0|split]].
    + apply (get_by_id_hit _ _ _ l1 q0 (l2 ++ [q])); try assumption.
      simpl. rewrite Hs, <- app_assoc. reflexivity.
    + intros Hmiss. rewrite Hs in Hmiss.
      destruct (hit_not_miss _ _ _ _ Hq0 Hmiss).
    + intros old Hold.
      rewrite (get_by_id_hit _ _ _ _ _ _ Hs Hl1 Hq0) in Hold.
      congruence.
Qed.

(** X2: adding a QSO whose id is not active and removing that id again
    gives the QSO back and leaves the state as it was, but for
    [last_update], which holds the reading taken by the removal. *)
Theorem add_then_remove_restores (s : t) (c : Clock) (q : QSO.t) :
  Forall (other_id (QSO.id q)) (active_qsos s) ->
  exists s1 c1,
    add_active_qso q s c = Return (tt, s1, c1) /\
    remove_active_qso (QSO.id q) s1 c1 =
    Return (Some q, set_last_update (readings c (S (calls c))) s,
            tick (tick c)).
Proof.
  intros Hfresh. eexists; eexists.
  split; [apply SystemStateFacts.add_active_qso_run|].
  rewrite (SystemStateFacts.remove_active_qso_hit (QSO.id q) _ _
             (active_qsos s) q []); [|reflexivity|exact Hfresh|reflexivity].
  unfold set_last_update, set_active_qsos. simpl.
  rewrite app_nil_r. reflexivity.
Qed.

Lemma add_then_remove_restores_witness :
  Forall (other_id (QSO.id qso_b)) (active_qsos fresh_state) /\
  exists s1 c1,
    add_active_qso qso_b fresh_state fresh_clock = Return (tt, s1, c1) /\
    remove_active_qso (QSO.id qso_b) s1 c1 =
    Return (Some qso_b,
            set_last_update (readings fresh_clock (S (calls fresh_clock)))
              fresh_state,
            tick (tick fresh_clock)).
Proof.
  assert (H : Forall (other_id (QSO.id qso_b)) (active_qsos fresh_state))
    by constructor.
  split; [exact H|].
  exact (add_then_remove_restores fresh_state fresh_clock qso_b H).
Defined.

(** X3: [get_active_qso_by_id] and [remove_active_qso] pick the same
    QSO: what the lookup returns is what the removal would return. *)
Theorem get_agrees_with_remove (s : t) (c : Clock) (qso_id : UUID) :
  exists r s' c',
    get_active_qso_by_id qso_id s c = Return (r, s, c) /\
    remove_active_qso qso_id s c = Return (r, s', c').
Proof.
  destruct (SystemStateFacts.first_match qso_id (active_qsos s))
    as [Hmiss|(l1 & q & l2 & Hs & Hl1 & Hq)].
  - exists None, s, c. split.
    + apply get_by_id_miss, Hmiss.
    + apply SystemStateFacts.remove_active_qso_miss, Hmiss.
  - exists (Some q). eexists; eexists. split.
    + apply (get_by_id_hit _ _ _ _ _ _ Hs Hl1 Hq).
    + apply (SystemStateFacts.remove_active_qso_hit _ _ _ _ _ _ Hs Hl1 Hq).
Qed.

(** X4: when the active ids are pairwise different, an id that has been
    removed is not found afterwards. *)
Theorem removed_id_is_gone (s : t) (c : Clock) (qso_id : UUID) :
  NoDup (active_ids s) ->
  exists r s' c',
    remove_active_qso qso_id s c = Return (r, s', c') /\
    get_active_qso_by_id qso_id s' c' = Return (None, s', c').
Proof.
  intros Hnd.
  destruct (SystemStateFacts.first_match qso_id (active_qsos s))
    as [Hmiss|(l1 & q & l2 & Hs & Hl1 & Hq)].
  - exists None, s, c. split.
    + apply SystemStateFacts.remove_active_qso_miss, Hmiss.
    + apply get_by_id_miss, Hmiss.
  - exists (Some q). eexists; eexists. split.
    + apply (SystemStateFacts.remove_active_qso_hit _ _ _ _ _ _ Hs Hl1 Hq).
    + apply get_by_id_miss. simpl.
      unfold active_ids in Hnd. rewrite Hs, map_app in Hnd. simpl in Hnd.
      apply NoDup_remove_2 in Hnd.
      apply Forall_forall. intros x Hx Hid. apply Hnd.
      rewrite Hq, <- Hid, <- map_app. apply in_map, Hx.
Qed.

Lemma removed_id_is_gone_witness :
  NoDup (active_ids (set_active_qsos [qso_b; qso_a] fresh_state)) /\
  exists r s' c',
    remove_active_qso 7 (set_active_qsos [qso_b; qso_a] fresh_state)
      fresh_clock = Return (r, s', c') /\
    get_active_qso_by_id 7 s' c' = Return (None, s', c').
Proof.
  assert (H : NoDup (active_ids (set_active_qsos [qso_b; qso_a] fresh_state))).
  { repeat constructor; simpl; intuition discriminate. }
  split; [exact H|].
  exact (removed_id_is_gone _ fresh_clock 7 H).
Defined.

(** *** Bookkeeping over a run *)

Ltac step_into op s c :=
  simpl run; unfold bind at 1;
  let H := fresh "Hstep" in
  pose proof (step_cases op s c) as H; simpl in H.

(** X5: over any run of operations, from any state, nothing raises,
    [error_count] grows by the number of [record_error] calls,
    [last_error] is the message of the last of them (the old one when
    there is none), and the mode, modem, mode-status and uptime fields
    are never touched. *)
Theorem run_error_accounting (ops : list Op) :
  forall (s : t) (c : Clock),
  exists s' c',
    run ops s c = Return (tt, s', c') /\
    error_count s' = error_count s + count_errors ops /\
    last_error s' = last_message ops (last_error s) /\
    current_mode s' = current_mode s /\
    modem_state s' = modem_state s /\
    mode_status s' = mode_status s /\
    uptime_seconds s' = uptime_seconds s.
Proof.
  induction ops as [|op ops IH]; intros s c.
  - exists s, c. simpl. repeat split. lia.
  - destruct op as [qso|qso_id|msg].
    + step_into (AddActiveQso qso) s c. rewrite Hstep.
      destruct (IH (set_last_update (readings c (calls c))
                      (set_active_qsos (active_qsos s ++ [qso]) s)) (tick c))
        as (s' & c' & E & H).
      exists s', c'. split; [exact E|exact H].
    + step_into (RemoveActiveQso qso_id) s c.
      destruct Hstep as [[_ Hstep]|(l1 & q & l2 & _ & _ & _ & Hstep)];
        rewrite Hstep.
      * destruct (IH s c) as (s' & c' & E & H).
        exists s', c'. split; [exact E|exact H].
      * destruct (IH (set_last_update (readings c (calls c))
                        (set_active_qsos (l1 ++ l2) s)) (tick c))
          as (s' & c' & E & H).
        exists s', c'. split; [exact E|exact H].
    + step_into (RecordError msg) s c. rewrite Hstep.
      match goal with
      | |- context [run ops ?s1 ?c1] =>
          destruct (IH s1 c1) as (s' & c' & E & H1 & H2 & H3)
      end.
      exists s', c'. split; [exact E|].
      simpl in H1, H2, H3.
      change (count_errors (RecordError msg :: ops))
        with (1 + count_errors ops).
      change (last_message (RecordError msg :: ops) (last_error s))
        with (last_message ops (Some msg)).
      split; [lia|]. split; [exact H2|exact H3].
Qed.

(** X6: over any run, every QSO in [active_qsos] at the end was there at
    the start or was handed to an [add_active_qso] of the run, and the
    list has grown by at most the number of those calls. *)
Theorem run_active_provenance (ops : list Op) :
  forall (s : t) (c : Clock),
  exists s' c',
    run ops s c = Return (tt, s', c') /\
    (forall q, In q (active_qsos s') ->
               In q (active_qsos s) \/ In q (added ops)) /\
    (List.length (active_qsos s')
     <= List.length (active_qsos s) + List.length (added ops))%nat.
Proof.
  induction ops as [|op ops IH]; intros s c.
  - exists s, c. simpl. repeat split; auto. lia.
  - destruct op as [qso|qso_id|msg].
    + step_into (AddActiveQso qso) s c. rewrite Hstep.
      match goal with
      | |- context [run ops ?s1 ?c1] =>
          destruct (IH s1 c1) as (s' & c' & E & Hin & Hlen)
      end.
      exists s', c'. split; [exact E|]. simpl in Hin, Hlen. split.
      * intros q Hq. destruct (Hin q Hq) as [H|H]; [|right; right; exact H].
        apply in_app_or in H. destruct H as [H|[H|[]]];
          [left; exact H|right; left; exact H].
      * rewrite length_app in Hlen. simpl in *. lia.
    + step_into (RemoveActiveQso qso_id) s c.
      destruct Hstep as [[_ Hstep]|(l1 & q0 & l2 & Hs & _ & _ & Hstep)];
        rewrite Hstep.
      * destruct (IH s c) as (s' & c' & E & H).
        exists s', c'. split; [exact E|exact H].
      * match goal with
        | |- context [run ops ?s1 ?c1] =>
            destruct (IH s1 c1) as (s' & c' & E & Hin & Hlen)
        end.
        exists s', c'. split; [exact E|]. simpl in Hin, Hlen. split.
        -- intros q Hq. destruct (Hin q Hq) as [H|H]; [left|right; exact H].
           rewrite Hs. apply in_app_or in H. apply in_or_app.
           destruct H as [H|H]; [left; exact H|right; right; exact H].
        -- rewrite Hs. rewrite length_app in *. simpl. lia.
    + step_into (RecordError msg) s c. rewrite Hstep.
      match goal with
      | |- context [run ops ?s1 ?c1] =>
          destruct (IH s1 c1) as (s' & c' & E & H)
      end.
      exists s', c'. split; [exact E|exact H].
Qed.

(** *** The two time stamps *)

Lemma trace_error_time (ops : list Op) :
  forall (s : t) (c : Clock),
    monotone c ->
    last_update s <= readings c (calls c) ->
    error_time_before_update s ->
    Forall error_time_before_update (trace ops s c).
Proof.
  induction ops as [|op ops IH]; intros s c Hmono Hlu Hs; simpl.
  - constructor; [exact Hs|constructor].
  - constructor; [exact Hs|].
    assert (Hnext : readings c (calls c) <= readings c (S (calls c)))
      by (apply Hmono; lia).
    assert (Hnext2 : readings c (S (calls c)) <= readings c (S (S (calls c))))
      by (apply Hmono; lia).
    assert (Hmono' : monotone (tick c))
      by (apply (SystemStateFacts.monotone_same_readings c); auto).
    assert (Hmono'' : monotone (tick (tick c)))
      by (apply (SystemStateFacts.monotone_same_readings c); auto).
    unfold error_time_before_update in Hs.
    pose proof (step_cases op s c) as Hstep.
    destruct op as [qso|qso_id|msg].
    + rewrite Hstep. apply IH; [exact Hmono'|exact Hnext|].
      unfold error_time_before_update. simpl.
      destruct (last_error_time s); [lia|exact I].
    + destruct Hstep as [[_ Hstep]|(l1 & q & l2 & _ & _ & _ & Hstep)];
        rewrite Hstep.
      * apply IH; assumption.
      * apply IH; [exact Hmono'|exact Hnext|].
        unfold error_time_before_update. simpl.
        destruct (last_error_time s); [lia|exact I].
    + rewrite Hstep. apply IH; [exact Hmono''|exact Hnext2|].
      unfold error_time_before_update. simpl. exact Hnext.
Qed.

(** X7: [record_error] reads the clock twice, first for
    [last_error_time] and then for [last_update].  Under a monotone
    clock, in every state of every run from [SystemState()], the time of
    the last error, when there is one, is not after [last_update]. *)
Theorem error_time_never_after_update (ops : list Op) (c : Clock) :
  monotone c ->
  Forall error_time_before_update (trace_from_create ops c).
Proof.
  intros Hmono. unfold trace_from_create. simpl.
  apply trace_error_time.
  - apply (SystemStateFacts.monotone_same_readings c); [reflexivity|exact Hmono].
  - simpl. apply Hmono. lia.
  - exact I.
Qed.

Lemma error_time_never_after_update_witness :
  monotone second_clock /\
  Forall error_time_before_update (trace_from_create sample_ops second_clock).
Proof.
  assert (Hmono : monotone second_clock).
  { intros i j Hij. simpl. lia. }
  split; [exact Hmono|].
  exact (error_time_never_after_update sample_ops second_clock Hmono).
Defined.

(** *** QSO *)

(** X8: [complete] leaves every field other than [end_time],
    [duration_seconds] and [status] as it was, whether it returns or
    raises; when it returns, the QSO is not reported as active any
    more, whatever its status was; when it raises, the status and so
    the answer of [is_active] are the ones from before the call. *)
Theorem completed_is_not_active
    (q : QSO.t) (c : Clock) (end_time : option timestamp) :
  exists q' c' r,
    QSO.complete end_time q c = (q', c', r) /\
    QSO.id q' = QSO.id q /\
    QSO.start_time q' = QSO.start_time q /\
    QSO.mode q' = QSO.mode q /\
    QSO.source_callsign q' = QSO.source_callsign q /\
    QSO.destination q' = QSO.destination q /\
    QSO.slot q' = QSO.slot q /\
    QSO.talk_group q' = QSO.talk_group q /\
    QSO.source_id q' = QSO.source_id q /\
    QSO.destination_id q' = QSO.destination_id q /\
    QSO.reflector q' = QSO.reflector q /\
    QSO.ber q' = QSO.ber q /\
    QSO.rssi q' = QSO.rssi q /\
    QSO.loss_rate q' = QSO.loss_rate q /\
    QSO.rf_source q' = QSO.rf_source q /\
    QSO.metadata q' = QSO.metadata q /\
    ((r = Return tt /\
      mixed_awareness (chosen_end end_time c) (QSO.start_time q) = false /\
      QSO.is_active q' c' = Return (false, q', c'))
     \/
     ((exists msg, r = Raise (TypeError msg)) /\
      mixed_awareness (chosen_end end_time c) (QSO.start_time q) = true /\
      exists b,
        QSO.is_active q c' = Return (b, q, c') /\
        QSO.is_active q' c' = Return (b, q', c'))).
Proof.
  rewrite QSOFacts.complete_run.
  destruct (QSOFacts.datetime_sub_cases (chosen_end end_time c)
              (QSO.start_time q)) as [[Hmix [delta E]]|[Hmix [msg E]]];
    rewrite E; eexists; eexists; eexists; (split; [reflexivity|]);
    do 15 (split; [reflexivity|]).
  - left. split; [reflexivity|]. split; [exact Hmix|reflexivity].
  - right. split; [exists msg; reflexivity|]. split; [exact Hmix|].
    eexists. split; reflexivity.
Qed.

(** X9: under a monotone clock, a QSO built with the default
    [start_time] and completed with the default end time, after any
    number of further clock readings, gets a duration that is not
    negative. *)
Theorem default_times_give_nonnegative_duration
    (c : Clock) (i : UUID) (m : Mode) (later : nat) :
  monotone c ->
  exists q' c' d,
    QSO.complete None (fst (QSO_now i m c))
      (mkClock (readings c) (calls (snd (QSO_now i m c)) + later))
    = (q', c', Return tt) /\
    QSO.duration_seconds q' = Some d /\
    Qle 0 d.
Proof.
  intros Hmono. eexists; eexists; eexists.
  split; [rewrite QSOFacts.complete_run; reflexivity|].
  split; [reflexivity|].
  apply QSOFacts.total_seconds_sign. simpl.
  assert (readings c (calls c) <= readings c (S (calls c + later)))
    by (apply Hmono; lia).
  lia.
Qed.

Lemma default_times_give_nonnegative_duration_witness :
  monotone second_clock /\
  exists q' c' d,
    QSO.complete None (fst (QSO_now 1 DMR second_clock))
      (mkClock (readings second_clock)
         (calls (snd (QSO_now 1 DMR second_clock)) + 3))
    = (q', c', Return tt) /\
    QSO.duration_seconds q' = Some d /\
    Qle 0 d.
Proof.
  assert (Hmono : monotone second_clock).
  { intros i j Hij. simpl. lia. }
  split; [exact Hmono|].
  exact (default_times_give_nonnegative_duration second_clock 1 DMR 3 Hmono).
Defined.

End ModelsExtra.

(** ** The other validators of config.py *)

Module ConfigExtra.

Ltac range_cases v lo hi :=
  let E1 := fresh "E" in
  let E2 := fresh "E" in
  destruct (v <? lo) eqn:E1; destruct (v >? hi) eqn:E2; simpl;
  rewrite ?Z.ltb_lt, ?Z.ltb_ge in E1; rewrite Z.gtb_ltb in E2;
  rewrite ?Z.ltb_lt, ?Z.ltb_ge in E2;
  [right|right|right|left]; (split; [lia|reflexivity]).

Lemma validate_port_cases (v : Z) :
  (1 <= v <= 65535 /\ APIConfig.validate_port v = Return v) \/
  (~ (1 <= v <= 65535) /\
   APIConfig.validate_port v
   = Raise (ValueError "port must be between 1 and 65535")).
Proof. unfold APIConfig.validate_port. range_cases v 1 65535. Qed.

Lemma validate_max_connections_cases (v : Z) :
  (1 <= v <= 1000 /\ WebSocketConfig.validate_max_connections v = Return v) \/
  (~ (1 <= v <= 1000) /\
   WebSocketConfig.validate_max_connections v
   = Raise (ValueError "max_connections must be between 1 and 1000")).
Proof. unfold WebSocketConfig.validate_max_connections. range_cases v 1 1000. Qed.

Lemma validate_workers_cases (v : Z) :
  (1 <= v <= 16 /\ PerformanceConfig.validate_workers v = Return v) \/
  (~ (1 <= v <= 16) /\
   PerformanceConfig.validate_workers v
   = Raise (ValueError "workers must be between 1 and 16")).
Proof. unfold PerformanceConfig.validate_workers. range_cases v 1 16. Qed.

Ltac by_cases H :=
  destruct H as [[? ->]|[? ->]]; split; intros H';
  try discriminate H'; auto; try contradiction;
  try (destruct H' as [? H']; discriminate H');
  try (eexists; reflexivity).

(** X10: [validate_port] returns its argument exactly for 1 to 65535,
    [validate_max_connections] for 1 to 1000 and [validate_workers] for
    1 to 16; outside its range each raises [ValueError]; the declared
    defaults 8080, 50 and 1 are values their validators accept. *)
Theorem section_validators_accept_exactly_the_ranges :
  (forall v, APIConfig.validate_port v = Return v <-> 1 <= v <= 65535) /\
  (forall v, (exists e, APIConfig.validate_port v = Raise e)
             <-> ~ (1 <= v <= 65535)) /\
  (forall v, WebSocketConfig.validate_max_connections v = Return v
             <-> 1 <= v <= 1000) /\
  (forall v, (exists e, WebSocketConfig.validate_max_connections v = Raise e)
             <-> ~ (1 <= v <= 1000)) /\
  (forall v, PerformanceConfig.validate_workers v = Return v <-> 1 <= v <= 16) /\
  (forall v, (exists e, PerformanceConfig.validate_workers v = Raise e)
             <-> ~ (1 <= v <= 16)) /\
  APIConfig.validate_port (APIConfig.port APIConfig.default) = Return 8080 /\
  WebSocketConfig.validate_max_connections
    (WebSocketConfig.max_connections WebSocketConfig.default) = Return 50 /\
  PerformanceConfig.validate_workers
    (PerformanceConfig.workers PerformanceConfig.default) = Return 1.
Proof.
  repeat apply conj; try reflexivity; intros v.
  - by_cases (validate_port_cases v).
  - by_cases (validate_port_cases v).
  - by_cases (validate_max_connections_cases v).
  - by_cases (validate_max_connections_cases v).
  - by_cases (validate_workers_cases v).
  - by_cases (validate_workers_cases v).
Qed.

(** X11: a [StateMachineConfig] that has been built has both sizes in
    range, whichever source each field came from: the keyword argument
    first, failing that the environment variable, which is validated
    like a keyword argument, and failing both the declared default; and
    it holds that value unchanged. *)
Theorem built_state_machine_config_in_range
    (kw_history env_history kw_timeout env_timeout : option Z)
    (kw_modes env_modes : option (list string))
    (cfg : StateMachineConfig.t) :
  StateMachineConfig.create
    (from_sources kw_history env_history)
    (from_sources kw_timeout env_timeout)
    (from_sources kw_modes env_modes) = Return cfg ->
  1 <= StateMachineConfig.qso_history_size cfg <= 10000 /\
  1 <= StateMachineConfig.qso_timeout_seconds cfg <= 3600 /\
  StateMachineConfig.qso_history_size cfg
    = match kw_history, env_history with
      | Some v, _ => v
      | None, Some v => v
      | None, None => 100
      end /\
  StateMachineConfig.qso_timeout_seconds cfg
    = match kw_timeout, env_timeout with
      | Some v, _ => v
      | None, Some v => v
      | None, None => 30
      end /\
  StateMachineConfig.supported_modes cfg
    = match kw_modes, env_modes with
      | Some l, _ => l
      | None, Some l => l
      | None, None => StateMachineConfig.default_modes
      end.
Proof.
  unfold StateMachineConfig.create, StateMachineConfig.field, from_sources.
  destruct kw_history as [h|]; [|destruct env_history as [h|]];
    (destruct kw_timeout as [s|]; [|destruct env_timeout as [s|]]);
    (destruct kw_modes as [m|]; [|destruct env_modes as [m|]]);
    try (destruct (ConfigFacts.validate_history_size_cases h) as [[Hh ->]|[Hh ->]]);
    try (destruct (ConfigFacts.validate_timeout_cases s) as [[Hs ->]|[Hs ->]]);
    simpl; intros E; try discriminate E;
    injection E as <-; simpl; repeat split; lia.
Qed.

Lemma built_state_machine_config_in_range_witness :
  StateMachineConfig.create
    (from_sources None (Some 50)) (from_sources (Some 60) (Some 7200))
    (from_sources None None)
  = Return (StateMachineConfig.mk 50 60 StateMachineConfig.default_modes) /\
  1 <= 50 <= 10000 /\ 1 <= 60 <= 3600 /\
  50 = 50 /\ 60 = 60 /\
  StateMachineConfig.default_modes = StateMachineConfig.default_modes.
Proof.
  split; [reflexivity|].
  exact (built_state_machine_config_in_range None (Some 50) (Some 60) (Some 7200)
           None None
           (StateMachineConfig.mk 50 60 StateMachineConfig.default_modes)
           eq_refl).
Defined.

(** A value from the environment is validated although no keyword
    argument was given. *)
Example environment_value_is_validated :
  StateMachineConfig.create
    (from_sources None (Some 0)) (from_sources None None) (from_sources None None)
  = Raise (ValidationError ["qso_history_size must be between 1 and 10000"]).
Proof. reflexivity. Qed.

(** *** validate_level *)

Lemma in_valid_levels (x : string) :
  existsb (String.eqb x) LoggingConfig.valid_levels = true
  <-> In x LoggingConfig.valid_levels.
Proof.
  rewrite existsb_exists. split.
  - intros (y & Hin & E). apply String.eqb_eq in E. subst y. exact Hin.
  - intros Hin. exists x. split; [exact Hin|apply String.eqb_refl].
Qed.

(** X12: [validate_level] looks only at the upper-cased text: it returns
    that text when it is one of DEBUG, INFO, WARNING, ERROR, CRITICAL,
    never the text as it was written, and otherwise raises [ValueError]
    with the list of the five names. *)
Theorem validate_level_normalises (upper : string -> string) (v : string) :
  match LoggingConfig.validate_level upper v with
  | Return r => r = upper v /\ In r LoggingConfig.valid_levels
  | Raise e =>
      ~ In (upper v) LoggingConfig.valid_levels /\
      e = ValueError
            "level must be one of: DEBUG, INFO, WARNING, ERROR, CRITICAL"
  end.
Proof.
  unfold LoggingConfig.validate_level.
  destruct (existsb (String.eqb (upper v)) LoggingConfig.valid_levels) eqn:E;
    simpl.
  - split; [reflexivity|]. apply in_valid_levels, E.
  - split; [|reflexivity]. intros H. apply in_valid_levels in H. congruence.
Qed.

(** X13: when upper-casing leaves the five level names as they are, a
    level that came out of [validate_level] validates to itself, and two
    spellings with the same upper-case form validate alike. *)
Theorem validated_level_is_stable
    (upper : string -> string) (v w r : string) :
  (forall l, In l LoggingConfig.valid_levels -> upper l = l) ->
  LoggingConfig.validate_level upper v = Return r ->
  LoggingConfig.validate_level upper r = Return r /\
  (upper w = upper v -> LoggingConfig.validate_level upper w = Return r).
Proof.
  intros Hfix Hv.
  pose proof (validate_level_normalises upper v) as H. rewrite Hv in H.
  destruct H as [Hr Hin]. split.
  - unfold LoggingConfig.validate_level. rewrite (Hfix r Hin).
    apply in_valid_levels in Hin. rewrite Hin. reflexivity.
  - intros Hw. unfold LoggingConfig.validate_level. rewrite Hw, <- Hr.
    apply in_valid_levels in Hin. rewrite Hin. reflexivity.
Qed.

Lemma validated_level_is_stable_witness :
  (forall l, In l LoggingConfig.valid_levels -> upper_ascii l = l) /\
  LoggingConfig.validate_level upper_ascii "warning" = Return "WARNING" /\
  LoggingConfig.validate_level upper_ascii "WARNING" = Return "WARNING" /\
  (upper_ascii "Warning" = upper_ascii "warning" ->
   LoggingConfig.validate_level upper_ascii "Warning" = Return "WARNING").
Proof.
  assert (Hfix : forall l, In l LoggingConfig.valid_levels -> upper_ascii l = l).
  { intros l [<-|[<-|[<-|[<-|[<-|[]]]]]]; reflexivity. }
  split; [exact Hfix|]. split; [reflexivity|].
  exact (validated_level_is_stable upper_ascii "warning" "Warning" "WARNING"
           Hfix eq_refl).
Defined.

End ConfigExtra.

(** ** Finding, loading and checking the configuration *)

Module ConfigFilesFacts.
Import ConfigFiles.

Section OnPlatform.

Variable P : Platform.

(** The loop stops at the first path for which [exists()] does not
    answer False: it returns the path on True and lets an exception
    through. *)
Lemma first_existing_spec (f : fs P) (paths : list (path P)) :
  (Forall (missing P f) paths /\
   first_existing P f paths = Fail (FileNotFoundError no_config_message))
  \/
  (exists l1 p l2,
      paths = l1 ++ p :: l2 /\ Forall (missing P f) l1 /\
      ((path_exists P f p = Done true /\ first_existing P f paths = Done p)
       \/
       (exists e, path_exists P f p = Fail e /\
                  first_existing P f paths = Fail e))).
Proof.
  induction paths as [|p paths IH]; simpl.
  - left. split; [constructor|reflexivity].
  - destruct (path_exists P f p) as [[|]|e] eqn:E.
    + right. exists [], p, paths. repeat split; auto.
    + destruct IH as [[Hall Hres]|(l1 & q & l2 & -> & Hl1 & Hq)].
      * left. split; [constructor; assumption|exact Hres].
      * right. exists (p :: l1), q, l2.
        split; [reflexivity|]. split; [constructor; assumption|exact Hq].
    + right. exists [], p, paths.
      split; [reflexivity|]. split; [constructor|].
      right. exists e. auto.
Qed.

Lemma search_standard_result (f : fs P) :
  match search_standard P f with
  | Done p => path_exists P f p = Done true
  | Fail e =>
      (e = FileNotFoundError no_config_message /\ home P <> None) \/
      (e = RuntimeError (home_error P) /\ home P = None) \/
      (exists p, path_exists P f p = Fail e)
  end.
Proof.
  unfold search_standard, search_paths.
  destruct (home P) as [h|] eqn:Hh.
  - destruct (first_existing_spec f (standard_paths P h))
      as [[_ ->]|(l1 & p & l2 & _ & _ & [[Hp ->]|(e & Hp & ->)])].
    + left. split; [reflexivity|discriminate].
    + exact Hp.
    + right. right. exists p. exact Hp.
  - right. left. split; reflexivity.
Qed.

(** X14: a path that [get_default_config_path] returns exists; when it
    raises, it raises [FileNotFoundError] with the home directory known,
    or the [RuntimeError] of [Path.home()], or an exception that an
    [exists()] call has raised. *)
Theorem default_config_path_exists (f : fs P) :
  match get_default_config_path P f with
  | Done p => path_exists P f p = Done true
  | Fail e =>
      (e = FileNotFoundError no_config_message /\ home P <> None) \/
      (e = RuntimeError (home_error P) /\ home P = None) \/
      (exists p, path_exists P f p = Fail e)
  end.
Proof.
  unfold get_default_config_path.
  destruct (environ_get P "MMDVM_CONFIG") as [e|];
    [|apply search_standard_result].
  destruct (truthy (Some e)); [|apply search_standard_result].
  destruct (path_exists P f (Path P e)) as [[|]|x] eqn:E.
  - exact E.
  - apply search_standard_result.
  - right. right. exists (Path P e). exact E.
Qed.

(** X15: with the home directory known, the candidates are the path of
    MMDVM_CONFIG (when set and not empty), ./config.yaml, the file under
    ~/.config and the file under /etc, in this order.
    [get_default_config_path] goes through them while [exists()]
    answers False: it returns the first candidate that exists, lets
    through what [exists()] raises on a candidate, and raises
    [FileNotFoundError] when every candidate is reported missing.  A
    variable that names a file reported missing is passed over without
    an error. *)
Theorem default_config_path_is_first_candidate (f : fs P) (h : path P) :
  home P = Some h ->
  (Forall (missing P f) (env_candidate P ++ standard_paths P h) /\
   get_default_config_path P f = Fail (FileNotFoundError no_config_message))
  \/
  (exists l1 p l2,
      env_candidate P ++ standard_paths P h = l1 ++ p :: l2 /\
      Forall (missing P f) l1 /\
      ((path_exists P f p = Done true /\
        get_default_config_path P f = Done p)
       \/
       (exists e, path_exists P f p = Fail e /\
                  get_default_config_path P f = Fail e))).
Proof.
  intros Hh.
  assert (Hstd : search_standard P f = first_existing P f (standard_paths P h)).
  { unfold search_standard, search_paths. rewrite Hh. reflexivity. }
  unfold get_default_config_path, env_candidate.
  destruct (environ_get P "MMDVM_CONFIG") as [e|].
  2: { rewrite Hstd. apply (first_existing_spec f (standard_paths P h)). }
  destruct (truthy (Some e)).
  2: { rewrite Hstd. apply (first_existing_spec f (standard_paths P h)). }
  cbn [app].
  destruct (path_exists P f (Path P e)) as [[|]|x] eqn:E.
  - right. exists [], (Path P e), (standard_paths P h).
    split; [reflexivity|]. split; [constructor|]. left. auto.
  - rewrite Hstd.
    destruct (first_existing_spec f (standard_paths P h))
      as [[Hall ->]|(l1 & p & l2 & Hl & Hl1 & Hp)].
    + left. split; [constructor; assumption|reflexivity].
    + right. exists (Path P e :: l1), p, l2.
      split; [rewrite Hl; reflexivity|].
      split; [constructor; assumption|exact Hp].
  - right. exists [], (Path P e), (standard_paths P h).
    split; [reflexivity|]. split; [constructor|]. right. exists x. auto.
Qed.

(** X16: the standard locations are listed, and [Path.home()] called,
    only after MMDVM_CONFIG has been tried.  With no home directory the
    function still returns the path of the variable when that file
    exists, lets through what [exists()] raises on it, and otherwise
    raises the [RuntimeError], also when ./config.yaml exists. *)
Theorem default_config_path_without_home (f : fs P) :
  home P = None ->
  (exists p,
      env_candidate P = [p] /\
      ((path_exists P f p = Done true /\
        get_default_config_path P f = Done p)
       \/
       (exists e, path_exists P f p = Fail e /\
                  get_default_config_path P f = Fail e)))
  \/
  (Forall (missing P f) (env_candidate P) /\
   get_default_config_path P f = Fail (RuntimeError (home_error P))).
Proof.
  intros Hh.
  assert (Hstd : search_standard P f = Fail (RuntimeError (home_error P))).
  { unfold search_standard, search_paths. rewrite Hh. reflexivity. }
  unfold get_default_config_path, env_candidate.
  destruct (environ_get P "MMDVM_CONFIG") as [e|].
  2: { right. split; [constructor|exact Hstd]. }
  destruct (truthy (Some e)).
  2: { right. split; [constructor|exact Hstd]. }
  destruct (path_exists P f (Path P e)) as [[|]|x] eqn:E.
  - left. exists (Path P e). split; [reflexivity|]. left. auto.
  - right. split; [|exact Hstd]. constructor; [exact E|constructor].
  - left. exists (Path P e). split; [reflexivity|]. right. exists x. auto.
Qed.

(** *** validate_runtime *)

Lemma check_app_log_dir_result (file : string) (f : fs P) :
  let app_log_dir := parent P (Path P file) in
  match check_app_log_dir P file f with
  | (f', Done _) =>
      access_W_OK P f' app_log_dir = true /\
      (f' = f \/
       (path_exists P f app_log_dir = Done false /\
        mkdir_parents P app_log_dir f = (f', None)))
  | (f', Fail e) =>
      ((exists msg, e = ModelError (ValueError msg)) \/
       path_exists P f app_log_dir = Fail e) /\
      (f' = f \/
       (path_exists P f app_log_dir = Done false /\
        f' = fst (mkdir_parents P app_log_dir f)))
  end.
Proof.
  unfold check_app_log_dir, check_writable, value_error.
  destruct (path_exists P f (parent P (Path P file))) as [[|]|x] eqn:Eex.
  - destruct (access_W_OK P f (parent P (Path P file))) eqn:Ew; simpl.
    + split; [exact Ew|left; reflexivity].
    + split; [left; eexists; reflexivity|left; reflexivity].
  - destruct (mkdir_parents P (parent P (Path P file)) f) as [f' [e|]] eqn:Emk.
    + split; [left; eexists; reflexivity|right; split; reflexivity].
    + destruct (access_W_OK P f' (parent P (Path P file))) eqn:Ew; simpl.
      * split; [exact Ew|right; split; reflexivity].
      * split; [left; eexists; reflexivity|right; split; reflexivity].
  - split; [right; reflexivity|left; reflexivity].
Qed.

(** X17: when [validate_runtime] returns, the log directory exists and
    is readable, and, if an application log file is configured, its
    directory is writable in the file system the call leaves; that file
    system is the one the call started from unless the directory was
    missing and has been created. *)
Theorem validate_runtime_passes
    (config : AppConfig) (f f' : fs P) :
  validate_runtime P config f = (f', Done tt) ->
  path_exists P f (Path P (config_log_directory config)) = Done true /\
  access_R_OK P f (Path P (config_log_directory config)) = true /\
  (forall file,
      config_logging_file config = Some file -> truthy (Some file) = true ->
      access_W_OK P f' (parent P (Path P file)) = true /\
      (f' = f \/
       (path_exists P f (parent P (Path P file)) = Done false /\
        mkdir_parents P (parent P (Path P file)) f = (f', None)))) /\
  (truthy (config_logging_file config) = false -> f' = f).
Proof.
  unfold validate_runtime, value_error.
  destruct (path_exists P f (Path P (config_log_directory config)))
    as [[|]|x] eqn:Eex; [|discriminate|discriminate].
  destruct (access_R_OK P f (Path P (config_log_directory config))) eqn:Er;
    cbn [negb]; [|discriminate].
  intros H. split; [reflexivity|]. split; [reflexivity|].
  destruct (config_logging_file config) as [file|].
  - destruct (truthy (Some file)) eqn:Et.
    + pose proof (check_app_log_dir_result file f) as Hc. simpl in Hc.
      rewrite H in Hc. split.
      * intros file' E _. injection E as <-. exact Hc.
      * intros Hf. discriminate Hf.
    + injection H as <-. split.
      * intros file' E Ht. injection E as <-. congruence.
      * reflexivity.
  - injection H as <-. split; [intros file' E; discriminate E|reflexivity].
Qed.

(** X18: what [validate_runtime] raises is a [ValueError], an [OSError]
    of [mkdir] included, or an exception that one of its two [exists()]
    calls has raised.  When the log directory is reported missing or is
    unreadable it raises [ValueError] before it creates anything, and
    when [exists()] raises on the log directory the exception leaves the
    function at once: in both cases the file system is as it was. *)
Theorem validate_runtime_failures (config : AppConfig) (f : fs P) :
  (forall f' e,
      validate_runtime P config f = (f', Fail e) ->
      (exists msg, e = ModelError (ValueError msg)) \/
      (exists p, path_exists P f p = Fail e)) /\
  (path_exists P f (Path P (config_log_directory config)) = Done false \/
   (path_exists P f (Path P (config_log_directory config)) = Done true /\
    access_R_OK P f (Path P (config_log_directory config)) = false) ->
   exists msg,
     validate_runtime P config f = (f, Fail (ModelError (ValueError msg)))) /\
  (forall e,
      path_exists P f (Path P (config_log_directory config)) = Fail e ->
      validate_runtime P config f = (f, Fail e)).
Proof.
  unfold validate_runtime, value_error. split; [|split].
  - intros f' e.
    destruct (path_exists P f (Path P (config_log_directory config)))
      as [[|]|x] eqn:Eex.
    + destruct (access_R_OK P f (Path P (config_log_directory config)));
        cbn [negb].
      2: { intros H. injection H as _ <-. left. eexists; reflexivity. }
      destruct (config_logging_file config) as [file|]; [|discriminate].
      destruct (truthy (Some file)); [|discriminate].
      intros H. pose proof (check_app_log_dir_result file f) as Hc.
      simpl in Hc. rewrite H in Hc. destruct Hc as [[Hc|Hc] _].
      * left. exact Hc.
      * right. eexists. exact Hc.
    + intros H. injection H as _ <-. left. eexists; reflexivity.
    + intros H. injection H as _ <-. right. eexists. exact Eex.
  - intros [H|[H1 H2]].
    + rewrite H. eexists; reflexivity.
    + rewrite H1, H2. cbn [negb]. eexists; reflexivity.
  - intros e H. rewrite H. reflexivity.
Qed.

(** *** load_config *)

(** X19: a configuration that [load_config] returns has passed
    [validate_runtime]: its log directory exists and is readable, and
    the directory of its application log file, when it has one, is
    writable in the file system the call leaves. *)
Theorem loaded_config_is_validated
    (config_path : option string) (f f' : fs P) (config : AppConfig) :
  load_config P config_path f = (f', Done config) ->
  choose_config P config_path f = Done config /\
  path_exists P f (Path P (config_log_directory config)) = Done true /\
  access_R_OK P f (Path P (config_log_directory config)) = true /\
  (forall file,
      config_logging_file config = Some file -> truthy (Some file) = true ->
      access_W_OK P f' (parent P (Path P file)) = true).
Proof.
  unfold load_config.
  destruct (choose_config P config_path f) as [cfg|e]; [|discriminate].
  destruct (validate_runtime P cfg f) as [f1 [[]|e]] eqn:Ev; [|discriminate].
  intros H. injection H as <- <-.
  destruct (validate_runtime_passes cfg f f1 Ev) as (H1 & H2 & H3 & _).
  repeat split; try assumption.
  intros file Hfile Ht. apply (H3 file Hfile Ht).
Qed.

(** X20: a path given to [load_config] that names no file raises
    [FileNotFoundError] and leaves the file system alone; without a path
    (None or the empty string), when no configuration file is found
    either, the default configuration is taken and checked instead. *)
Theorem load_config_fallback (f : fs P) :
  (forall p,
      truthy (Some p) = true ->
      path_exists P f (Path P p) = Done false ->
      load_config P (Some p) f =
      (f, Fail (FileNotFoundError ("Configuration file not found: " ++ p)%string)))
  /\
  (forall config_path config,
      truthy config_path = false ->
      get_default_config_path P f = Fail (FileNotFoundError no_config_message) ->
      default_config P = Done config ->
      load_config P config_path f =
      (fst (validate_runtime P config f),
       match snd (validate_runtime P config f) with
       | Done _ => Done config
       | Fail e => Fail e
       end)).
Proof.
  split.
  - intros p Ht Hmiss. unfold load_config, choose_config, from_yaml.
    rewrite Ht, Hmiss. reflexivity.
  - intros config_path config Ht Hnone Hdef.
    assert (Hc : choose_config P config_path f = Done config).
    { unfold choose_config, load_default.
      destruct config_path as [p|]; [rewrite Ht|]; rewrite Hnone; exact Hdef. }
    unfold load_config. rewrite Hc.
    destruct (validate_runtime P config f) as [f1 [[]|e]]; reflexivity.
Qed.

End OnPlatform.

(** *** On the sample platform *)

Lemma default_config_path_is_first_candidate_witness :
  home (sample_platform (Some "/opt/none.yaml") (Some "/home/op")) = Some "/home/op" /\
  ((Forall (missing (sample_platform (Some "/opt/none.yaml") (Some "/home/op")) ["/home/op/.config/mmdvm-state-machine/config.yaml"])
      (env_candidate (sample_platform (Some "/opt/none.yaml") (Some "/home/op")) ++ standard_paths (sample_platform (Some "/opt/none.yaml") (Some "/home/op")) "/home/op") /\
    get_default_config_path (sample_platform (Some "/opt/none.yaml") (Some "/home/op")) ["/home/op/.config/mmdvm-state-machine/config.yaml"] = Fail (FileNotFoundError no_config_message))
   \/
   (exists l1 p l2,
       env_candidate (sample_platform (Some "/opt/none.yaml") (Some "/home/op")) ++ standard_paths (sample_platform (Some "/opt/none.yaml") (Some "/home/op")) "/home/op" = l1 ++ p :: l2 /\
       Forall (missing (sample_platform (Some "/opt/none.yaml") (Some "/home/op")) ["/home/op/.config/mmdvm-state-machine/config.yaml"]) l1 /\
       ((path_exists (sample_platform (Some "/opt/none.yaml") (Some "/home/op")) ["/home/op/.config/mmdvm-state-machine/config.yaml"] p = Done true /\
         get_default_config_path (sample_platform (Some "/opt/none.yaml") (Some "/home/op")) ["/home/op/.config/mmdvm-state-machine/config.yaml"] = Done p)
        \/
        (exists e, path_exists (sample_platform (Some "/opt/none.yaml") (Some "/home/op")) ["/home/op/.config/mmdvm-state-machine/config.yaml"] p = Fail e /\
                   get_default_config_path (sample_platform (Some "/opt/none.yaml") (Some "/home/op")) ["/home/op/.config/mmdvm-state-machine/config.yaml"] = Fail e)))).
Proof.
  split; [reflexivity|].
  exact (default_config_path_is_first_candidate (sample_platform (Some "/opt/none.yaml") (Some "/home/op")) ["/home/op/.config/mmdvm-state-machine/config.yaml"] "/home/op" eq_refl).
Defined.

(** The variable names a file that is not there: it is passed over and
    the file under ~/.config is returned. *)
Example missing_env_file_is_skipped :
  get_default_config_path (sample_platform (Some "/opt/none.yaml") (Some "/home/op")) ["/home/op/.config/mmdvm-state-machine/config.yaml"]
  = Done "/home/op/.config/mmdvm-state-machine/config.yaml".
Proof. reflexivity. Qed.

(** The variable names a file that [exists()] cannot look at: the
    exception leaves the function although ./config.yaml exists. *)
Example locked_env_file_raises :
  get_default_config_path
    (guarded_platform ["/opt/none.yaml"] (Some "/opt/none.yaml") (Some "/home/op"))
    ["config.yaml"]
  = Fail (OSError "[Errno 13] Permission denied").
Proof. reflexivity. Qed.

Lemma default_config_path_without_home_witness :
  home (sample_platform None None) = None /\
  ((exists p,
       env_candidate (sample_platform None None) = [p] /\
       ((path_exists (sample_platform None None) ["config.yaml"] p = Done true /\
         get_default_config_path (sample_platform None None) ["config.yaml"]
         = Done p)
        \/
        (exists e,
            path_exists (sample_platform None None) ["config.yaml"] p = Fail e /\
            get_default_config_path (sample_platform None None) ["config.yaml"]
            = Fail e)))
   \/
   (Forall (missing (sample_platform None None) ["config.yaml"])
      (env_candidate (sample_platform None None)) /\
    get_default_config_path (sample_platform None None) ["config.yaml"]
    = Fail (RuntimeError (home_error (sample_platform None None))))).
Proof.
  split; [reflexivity|].
  exact (default_config_path_without_home
           (sample_platform None None) ["config.yaml"] eq_refl).
Defined.

(** The default configuration on a file system that has the log
    directory but not the directory of the application log. *)
Example validate_runtime_creates_app_log_dir :
  validate_runtime plain_platform default_app_config log_dir_only
  = ("/var/log/mmdvm-state-machine" :: log_dir_only, Done tt).
Proof. reflexivity. Qed.

(** [exists()] raising on the log directory leaves [validate_runtime]
    with that exception, not with a [ValueError]. *)
Example validate_runtime_locked_log_dir :
  validate_runtime (guarded_platform ["/var/log/mmdvm"] None (Some "/home/op"))
    default_app_config log_dir_only
  = (log_dir_only, Fail (OSError "[Errno 13] Permission denied")).
Proof. reflexivity. Qed.

Lemma validate_runtime_passes_witness :
  validate_runtime plain_platform default_app_config log_dir_only
  = ("/var/log/mmdvm-state-machine" :: log_dir_only, Done tt) /\
  path_exists plain_platform log_dir_only
    (Path plain_platform (config_log_directory default_app_config)) = Done true /\
  access_R_OK plain_platform log_dir_only
    (Path plain_platform (config_log_directory default_app_config)) = true /\
  (forall file,
      config_logging_file default_app_config = Some file ->
      truthy (Some file) = true ->
      access_W_OK plain_platform ("/var/log/mmdvm-state-machine" :: log_dir_only)
        (parent plain_platform (Path plain_platform file)) = true /\
      ("/var/log/mmdvm-state-machine" :: log_dir_only = log_dir_only \/
       (path_exists plain_platform log_dir_only
          (parent plain_platform (Path plain_platform file)) = Done false /\
        mkdir_parents plain_platform
          (parent plain_platform (Path plain_platform file)) log_dir_only
        = ("/var/log/mmdvm-state-machine" :: log_dir_only, None)))) /\
  (truthy (config_logging_file default_app_config) = false ->
   "/var/log/mmdvm-state-machine" :: log_dir_only = log_dir_only).
Proof.
  split; [reflexivity|].
  exact (validate_runtime_passes plain_platform default_app_config log_dir_only
           ("/var/log/mmdvm-state-machine" :: log_dir_only) eq_refl).
Defined.

Lemma loaded_config_is_validated_witness :
  load_config plain_platform None log_dir_only
  = ("/var/log/mmdvm-state-machine" :: log_dir_only, Done default_app_config) /\
  choose_config plain_platform None log_dir_only = Done default_app_config /\
  path_exists plain_platform log_dir_only
    (Path plain_platform (config_log_directory default_app_config)) = Done true /\
  access_R_OK plain_platform log_dir_only
    (Path plain_platform (config_log_directory default_app_config)) = true /\
  (forall file,
      config_logging_file default_app_config = Some file ->
      truthy (Some file) = true ->
      access_W_OK plain_platform ("/var/log/mmdvm-state-machine" :: log_dir_only)
        (parent plain_platform (Path plain_platform file)) = true).
Proof.
  split; [reflexivity|].
  exact (loaded_config_is_validated plain_platform None log_dir_only
           ("/var/log/mmdvm-state-machine" :: log_dir_only)
           default_app_config eq_refl).
Defined.

Lemma load_config_fallback_witness :
  (truthy (Some "/etc/absent.yaml") = true /\
   path_exists plain_platform log_dir_only
     (Path plain_platform "/etc/absent.yaml") = Done false /\
   load_config plain_platform (Some "/etc/absent.yaml") log_dir_only
   = (log_dir_only,
      Fail (FileNotFoundError "Configuration file not found: /etc/absent.yaml")))
  /\
  (truthy (Some "") = false /\
   get_default_config_path plain_platform log_dir_only
   = Fail (FileNotFoundError no_config_message) /\
   default_config plain_platform = Done default_app_config /\
   load_config plain_platform (Some "") log_dir_only
   = ("/var/log/mmdvm-state-machine" :: log_dir_only, Done default_app_config)).
Proof.
  split.
  - split; [reflexivity|]. split; [reflexivity|].
    exact (proj1 (load_config_fallback plain_platform log_dir_only)
             "/etc/absent.yaml" eq_refl eq_refl).
  - split; [reflexivity|]. split; [reflexivity|]. split; [reflexivity|].
    exact (proj2 (load_config_fallback plain_platform log_dir_only)
             (Some "") default_app_config eq_refl eq_refl eq_refl).
Defined.

End ConfigFilesFacts.

(** ** logging_setup.py *)

Module LoggingFacts.
Import Logging.

Lemma append_same_left (a b : string) : (a ++ b)%string = a -> b = EmptyString.
Proof.
  induction a as [|x a IH]; simpl; intros H.
  - exact H.
  - injection H as H. apply IH, H.
Qed.

Lemma append_empty_right (a : string) : (a ++ EmptyString)%string = a.
Proof. induction a as [|x a IH]; simpl; [|rewrite IH]; reflexivity. Qed.

(** X21: [LoggerAdapter.process] hands [kwargs] back untouched and never
    drops the message: the result starts with it, and is the message
    itself exactly when the adapter has no extra items; otherwise the
    items follow in brackets, in their order, separated by spaces. *)
Theorem process_keeps_message
    (K : Type) (extra : option (list (string * string)))
    (msg : string) (kwargs : K) :
  snd (LoggerAdapter.process extra msg kwargs) = kwargs /\
  exists suffix,
    fst (LoggerAdapter.process extra msg kwargs) = (msg ++ suffix)%string /\
    (fst (LoggerAdapter.process extra msg kwargs) = msg
     <-> extra = None \/ extra = Some []) /\
    (forall item items,
        extra = Some (item :: items) ->
        suffix
        = (" [" ++ String.concat " "
                     (map LoggerAdapter.format_item (item :: items))
           ++ "]")%string).
Proof.
  destruct extra as [[|item items]|]; simpl.
  - split; [reflexivity|]. exists EmptyString.
    split; [symmetry; apply append_empty_right|].
    split; [|intros ? ? H; discriminate H].
    split; auto.
  - split; [reflexivity|]. eexists. split; [reflexivity|]. split.
    + split.
      * intros H. apply append_same_left in H. discriminate H.
      * intros [H|H]; discriminate H.
    + intros item' items' H. injection H as <- <-. reflexivity.
  - split; [reflexivity|]. exists EmptyString.
    split; [symmetry; apply append_empty_right|].
    split; [|intros ? ? H; discriminate H].
    split; auto.
Qed.

Section OnPlatform.

Variable P : Platform.

Lemma info_root (msg : string) (w : World P) : root P (info P msg w) = root P w.
Proof.
  unfold info.
  destruct (unblocked P w msg && (level (root P w) <=? INFO)); reflexivity.
Qed.

Lemma filter_all {A : Type} (keep : A -> bool) (l : list A) :
  Forall (fun x => keep x = true) l -> filter keep l = l.
Proof.
  induction 1 as [|x l Hx _ IH]; simpl; [|rewrite Hx, IH]; reflexivity.
Qed.

Lemma filter_none {A : Type} (keep : A -> bool) (l : list A) :
  Forall (fun x => keep x = false) l -> filter keep l = [].
Proof.
  induction 1 as [|x l Hx _ IH]; simpl; [|rewrite Hx, IH]; reflexivity.
Qed.

Lemma installed_levels (config : LoggingConfig.t) (n : Z) :
  Forall (fun h => handler_level h = n /\
                   handler_format h = Some (LoggingConfig.format config))
    (installed config n).
Proof.
  unfold installed. constructor; [split; reflexivity|].
  destruct (LoggingConfig.file config) as [file|]; [|constructor].
  destruct (truthy (Some file)); repeat constructor.
Qed.

(** The world a successful [setup_logging] leaves. *)
Lemma setup_logging_success (config : LoggingConfig.t) (w w' : World P) :
  setup_logging P config w = (w', Done tt) ->
  exists n,
    check_level P (LoggingConfig.level config) = Return n /\
    formatter_error P (LoggingConfig.format config) = None /\
    exists f',
      w' = info P (initial_message config)
             (mkWorld P (mkLogger n (installed config n)) f' (delivered P w)
                (unblocked P w)).
Proof.
  unfold setup_logging, installed.
  destruct (check_level P (LoggingConfig.level config)) as [n|e];
    [|discriminate].
  destruct (formatter_error P (LoggingConfig.format config)); [discriminate|].
  intros H. exists n. split; [reflexivity|]. split; [reflexivity|].
  destruct (LoggingConfig.file config) as [file|].
  - destruct (truthy (Some file)).
    + cbn [files root delivered unblocked] in H.
      destruct (mkdir_parents P (parent P (Path P file)) (files P w))
        as [f3 [e|]]; [discriminate|].
      destruct (open_append P file f3) as [f4 [e|]]; [discriminate|].
      injection H as <-. exists f4. reflexivity.
    + injection H as <-. eexists. reflexivity.
  - injection H as <-. eexists. reflexivity.
Qed.

(** X22: after a successful [setup_logging] the root logger has the
    level of the configuration and exactly the handlers the
    configuration asks for: the console handler, followed by one file
    handler when a log file is configured, rotating when rotation is
    enabled; all of them at the logger's level and with the configured
    format. *)
Theorem setup_logging_installs (config : LoggingConfig.t) (w w' : World P) :
  setup_logging P config w = (w', Done tt) ->
  exists n,
    check_level P (LoggingConfig.level config) = Return n /\
    root P w' = mkLogger n (installed config n) /\
    Forall (fun h => handler_level h = n /\
                     handler_format h = Some (LoggingConfig.format config))
      (handlers (root P w')) /\
    (1 <= List.length (handlers (root P w')) <= 2)%nat.
Proof.
  intros H. destruct (setup_logging_success config w w' H)
    as (n & Hn & _ & f' & ->).
  exists n. split; [exact Hn|]. rewrite info_root. simpl.
  split; [reflexivity|]. split; [apply installed_levels|].
  unfold installed. destruct (LoggingConfig.file config) as [file|]; simpl;
    [destruct file; simpl|]; lia.
Qed.

(** X23: the handlers the root logger had before are dropped: whatever
    the worlds two successful calls start from, they leave the same root
    logger, so that calling [setup_logging] again adds no handler. *)
Theorem setup_logging_forgets_old_handlers
    (config : LoggingConfig.t) (w w' v v' : World P) :
  setup_logging P config w = (w', Done tt) ->
  setup_logging P config v = (v', Done tt) ->
  root P w' = root P v'.
Proof.
  intros Hw Hv.
  destruct (setup_logging_success config w w' Hw) as (n & Hn & _ & f1 & ->).
  destruct (setup_logging_success config v v' Hv) as (m & Hm & _ & f2 & ->).
  rewrite !info_root. simpl. congruence.
Qed.

(** X24: the line "Logging initialized" is handed to every installed
    handler when the configured level lets INFO through, and to none
    when it does not; nothing else is handed to any handler. *)
Theorem setup_logging_initial_message
    (config : LoggingConfig.t) (w w' : World P) :
  setup_logging P config w = (w', Done tt) ->
  exists n,
    check_level P (LoggingConfig.level config) = Return n /\
    delivered P w' =
    delivered P w
    ++ (if unblocked P w (initial_message config) && (n <=? INFO)
        then map (fun h => (h, initial_message config)) (installed config n)
        else []).
Proof.
  intros H. destruct (setup_logging_success config w w' H)
    as (n & Hn & _ & f' & ->).
  exists n. split; [exact Hn|]. unfold info.
  cbn [root level handlers delivered unblocked].
  destruct (unblocked P w (initial_message config)) eqn:U;
    destruct (n <=? INFO) eqn:E; cbn [andb root level handlers delivered];
    try (symmetry; apply app_nil_r).
  rewrite filter_all; [reflexivity|].
  eapply Forall_impl; [|apply (installed_levels config n)].
  intros h [-> _]. exact E.
Qed.


End OnPlatform.

(** *** On the sample platform *)

Lemma setup_logging_installs_witness :
  setup_logging plain_platform warning_config used_world
  = (mkWorld plain_platform
       (mkLogger 30 [mkHandler StreamHandler_stdout 30 (Some "%(message)s")])
       log_dir_only [] (fun _ => true),
     Done tt) /\
  exists n,
    check_level plain_platform (LoggingConfig.level warning_config) = Return n /\
    root plain_platform
      (mkWorld plain_platform
         (mkLogger 30 [mkHandler StreamHandler_stdout 30 (Some "%(message)s")])
         log_dir_only [] (fun _ => true))
    = mkLogger n (installed warning_config n) /\
    Forall (fun h => handler_level h = n /\
                     handler_format h
                     = Some (LoggingConfig.format warning_config))
      (handlers
         (root plain_platform
            (mkWorld plain_platform
               (mkLogger 30
                  [mkHandler StreamHandler_stdout 30 (Some "%(message)s")])
               log_dir_only [] (fun _ => true)))) /\
    (1 <= List.length
            (handlers
               (root plain_platform
                  (mkWorld plain_platform
                     (mkLogger 30
                        [mkHandler StreamHandler_stdout 30 (Some "%(message)s")])
                     log_dir_only [] (fun _ => true))))
     <= 2)%nat.
Proof.
  split; [reflexivity|].
  exact (setup_logging_installs plain_platform warning_config used_world _
           eq_refl).
Defined.

Lemma setup_logging_forgets_old_handlers_witness :
  setup_logging plain_platform warning_config used_world
  = (fst (setup_logging plain_platform warning_config used_world), Done tt) /\
  setup_logging plain_platform warning_config clean_world
  = (fst (setup_logging plain_platform warning_config clean_world), Done tt) /\
  root plain_platform
    (fst (setup_logging plain_platform warning_config used_world))
  = root plain_platform
      (fst (setup_logging plain_platform warning_config clean_world)).
Proof.
  split; [reflexivity|]. split; [reflexivity|].
  exact (setup_logging_forgets_old_handlers plain_platform warning_config
           used_world _ clean_world _ eq_refl eq_refl).
Defined.

Lemma setup_logging_initial_message_witness :
  setup_logging plain_platform LoggingConfig.default clean_world
  = (fst (setup_logging plain_platform LoggingConfig.default clean_world),
     Done tt) /\
  exists n,
    check_level plain_platform (LoggingConfig.level LoggingConfig.default)
    = Return n /\
    delivered plain_platform
      (fst (setup_logging plain_platform LoggingConfig.default clean_world))
    = delivered plain_platform clean_world
      ++ (if unblocked plain_platform clean_world
               (initial_message LoggingConfig.default) && (n <=? INFO)
          then map (fun h => (h, initial_message LoggingConfig.default))
                 (installed LoggingConfig.default n)
          else []).
Proof.
  split; [reflexivity|].
  exact (setup_logging_initial_message plain_platform LoggingConfig.default
           clean_world _ eq_refl).
Defined.


(** With the level WARNING nothing is handed to the handlers. *)
Example setup_logging_warning_is_silent :
  delivered plain_platform
    (fst (setup_logging plain_platform warning_config used_world)) = [].
Proof. reflexivity. Qed.

Example setup_logging_default_config :
  root plain_platform
    (fst (setup_logging plain_platform LoggingConfig.default used_world))
  = mkLogger 20
      [mkHandler StreamHandler_stdout 20
         (Some "%(asctime)s - %(name)s - %(levelname)s - %(message)s");
       mkHandler
         (RotatingFileHandler "/var/log/mmdvm-state-machine/app.log" 10485760 5)
         20 (Some "%(asctime)s - %(name)s - %(levelname)s - %(message)s")].
Proof. reflexivity. Qed.

End LoggingFacts.
